(** * Tiling, stitching and resizing of raster images ([helpers.py])

    A shallow embedding of [resize], [make_tiles] and [stitch_tiles] together
    with the fragment of Python and NumPy they rely on, followed by the
    properties of the tiling engine.

    Arrays are NumPy arrays: a shape and the samples in row-major (C) order.
    Python exceptions are values of [exn]; a call either returns or raises. *)

From Stdlib Require Import ZArith List Lia Bool Arith PeanoNat.
From Stdlib Require Import Floats.SpecFloat.
Import ListNotations.

Set Implicit Arguments.

(** ** Exceptions and results *)

Inductive exn : Type :=
| IndexError
| ZeroDivisionError
| OverflowError
| ValueError
| cv2_error.

Inductive result (T : Type) : Type :=
| Ok (v : T)
| Raise (e : exn).

Arguments Ok {T} v.
Arguments Raise {T} e.

Definition bind {T U : Type} (c : result T) (k : T -> result U) : result U :=
  match c with
  | Ok v => k v
  | Raise e => Raise e
  end.

Notation "x <- c ;; k" := (bind c (fun x => k))
  (at level 61, c at next level, right associativity).
Notation "' p <- c ;; k" := (bind c (fun x => let p := x in k))
  (at level 61, p pattern, c at next level, right associativity).

Definition raises {T : Type} (c : result T) : Prop := exists e, c = Raise e.

Definition returns {T : Type} (c : result T) : Prop := exists v, c = Ok v.

(** Monadic iteration of a loop body over the values of an iterator. *)
Fixpoint foldM {S X : Type} (body : S -> X -> result S) (xs : list X) (s : S)
  : result S :=
  match xs with
  | [] => Ok s
  | x :: xs' => s' <- body s x ;; foldM body xs' s'
  end.

(** Monadic map, for a list comprehension whose element expression may raise. *)
Fixpoint mapM {X Y : Type} (f : X -> result Y) (xs : list X) : result (list Y) :=
  match xs with
  | [] => Ok []
  | x :: xs' => y <- f x ;; ys <- mapM f xs' ;; Ok (y :: ys)
  end.

(** ** Row-major tables *)

(** [tab n g] lays the blocks [g 0], ..., [g (n-1)] one after the other. *)
Definition tab {T : Type} (n : nat) (g : nat -> list T) : list T :=
  flat_map g (seq 0 n).

Definition tab3 {T : Type} (h w c : nat) (f : nat -> nat -> nat -> T) : list T :=
  tab h (fun i => tab w (fun j => map (f i j) (seq 0 c))).

(** ** NumPy arrays *)

Record ndarray (T : Type) : Type := NdArray {
  shape : list nat;
  data : list T
}.

Arguments NdArray {T} shape data.

(** Number of samples of an array of the given shape. *)
Definition size (s : list nat) : nat := fold_right Nat.mul 1 s.

Definition wf {T : Type} (a : ndarray T) : Prop :=
  length (data a) = size (shape a).

Definition ndim {T : Type} (a : ndarray T) : nat := length (shape a).

(** [a.shape[n]] *)
Definition shape_at {T : Type} (a : ndarray T) (n : nat) : result nat :=
  match nth_error (shape a) n with
  | Some d => Ok d
  | None => Raise IndexError
  end.

Definition nrows {T : Type} (a : ndarray T) : nat := nth 0 (shape a) 0.
Definition ncols {T : Type} (a : ndarray T) : nat := nth 1 (shape a) 0.

(** Samples per pixel: the product of the axes after the first two (1 for a
    2-D array, the channel count for a 3-D one). *)
Definition depth {T : Type} (a : ndarray T) : nat := size (skipn 2 (shape a)).

(** [a[i, j]] flattened and read at position [k]. *)
Definition px {T : Type} (d : T) (a : ndarray T) (i j k : nat) : T :=
  nth ((i * ncols a + j) * depth a + k) (data a) d.

(** [a[n]] for [n] within the first axis. *)
Definition index0 {T : Type} (a : ndarray T) (n : nat) : ndarray T :=
  match shape a with
  | _ :: s => NdArray s (firstn (size s) (skipn (n * size s) (data a)))
  | [] => a
  end.

(** Python slice normalisation for [start:stop] on an axis of length [len]:
    the first index taken and the number of indices taken. *)
Definition slice_index (len : nat) (i : Z) : Z :=
  if (i <? 0)%Z then Z.max 0 (i + Z.of_nat len) else Z.min i (Z.of_nat len).

Definition slice_bounds (len : nat) (start stop : Z) : nat * nat :=
  let lo := slice_index len start in
  let hi := slice_index len stop in
  (Z.to_nat lo, Z.to_nat (hi - lo)).

(** [a[r0:r1, c0:c1]]; the remaining axes are kept whole. *)
Definition slice2 {T : Type} (d : T) (a : ndarray T) (r0 r1 c0 c1 : Z)
  : ndarray T :=
  match shape a with
  | h :: w :: rest =>
      let '(i0, h') := slice_bounds h r0 r1 in
      let '(j0, w') := slice_bounds w c0 c1 in
      NdArray (h' :: w' :: rest)
              (tab3 h' w' (size rest) (fun i j k => px d a (i0 + i) (j0 + j) k))
  | _ => a
  end.

(** [np.asarray] of a list of arrays of one shape: a new leading axis. An
    empty list gives the 1-D array of shape [(0,)]. *)
Definition np_asarray {T : Type} (l : list (ndarray T)) : ndarray T :=
  match l with
  | [] => NdArray [0] []
  | a :: _ => NdArray (length l :: shape a) (flat_map (@data T) l)
  end.

(** [np.zeros(shape)] *)
Definition np_zeros {T : Type} (zero : T) (s : list nat) : ndarray T :=
  NdArray s (repeat zero (size s)).

(** [np.unravel_index(ndx, (d0, d1))] in C order. *)
Definition np_unravel_index (ndx : nat) (dims : nat * nat) : result (nat * nat) :=
  let '(d0, d1) := dims in
  if ndx <? d0 * d1 then Ok (ndx / d1, ndx mod d1) else Raise ValueError.

(** Index read by NumPy's 'reflect' mode at position [t] relative to an axis
    of length [n] ([t] is negative before the axis and at least [n] after
    it): the axis is mirrored about its first and last samples, which are not
    repeated. An axis of length 1 is extended by its only sample. *)
Definition reflect_index (n : nat) (t : Z) : nat :=
  if n <=? 1 then 0
  else
    let period := (2 * (Z.of_nat n - 1))%Z in
    let m := (t mod period)%Z in
    Z.to_nat (if (m <? Z.of_nat n)%Z then m else (period - m)%Z).

(** [np.pad(a, ((p, p), (p, p), (0, 0)), 'reflect')]: three pairs of widths
    fit a 3-D array only, and an empty axis cannot be extended. *)
Definition np_pad_reflect {T : Type} (d : T) (p : nat) (a : ndarray T)
  : result (ndarray T) :=
  match shape a with
  | [h; w; c] =>
      if (0 <? p) && ((h =? 0) || (w =? 0)) then Raise ValueError
      else
        Ok (NdArray [h + 2 * p; w + 2 * p; c]
              (tab3 (h + 2 * p) (w + 2 * p) c (fun i j k =>
                 px d a (reflect_index h (Z.of_nat i - Z.of_nat p))
                        (reflect_index w (Z.of_nat j - Z.of_nat p)) k)))
  | _ => Raise ValueError
  end.

(** ** Python integers *)

(** [range(0, stop, step)]; a zero step raises. *)
Definition py_range (stop step : Z) : result (list Z) :=
  if (step =? 0)%Z then Raise ValueError
  else if (0 <? step)%Z then
    Ok (map (fun k => (Z.of_nat k * step)%Z)
            (seq 0 (Z.to_nat ((stop + step - 1) / step))))
  else
    Ok (map (fun k => (Z.of_nat k * step)%Z)
            (seq 0 (Z.to_nat ((- stop - step - 1) / (- step))))).

(** ** Binary64 arithmetic

    Python floats are IEEE 754 binary64 values; the operations are the ones
    of the standard library's specification of that format. *)

Definition prec : Z := 53.
Definition emax : Z := 1024.

(** [float(z)] *)
Definition float_of_int (z : Z) : spec_float :=
  binary_normalize prec emax z 0 false.

Definition is_finite (x : spec_float) : bool :=
  match x with
  | S754_zero _ | S754_finite _ _ _ => true
  | _ => false
  end.

(** [a / b] for integers [a] and [b]: the binary64 value nearest to the
    exact quotient (the integers are not converted first), with the sign of
    the quotient on a zero; a quotient too large for the format raises. *)
Definition truediv (a b : Z) : result spec_float :=
  if (b =? 0)%Z then Raise ZeroDivisionError
  else
    let negate := xorb (a <? 0)%Z (b <? 0)%Z in
    if (a =? 0)%Z then Ok (S754_zero negate)
    else
      let '(q, e, l) := SFdiv_core_binary prec emax (Z.abs a) 0 (Z.abs b) 0 in
      let x := binary_round_aux prec emax negate q e l in
      if is_finite x then Ok x else Raise OverflowError.

(** [n * x] for an integer [n] and a float [x]. *)
Definition int_mul_float (n : Z) (x : spec_float) : spec_float :=
  SFmul prec emax (float_of_int n) x.

(** [int(x)]: truncation towards zero; infinities and NaN raise. *)
Definition int_of_float (x : spec_float) : result Z :=
  match x with
  | S754_zero _ => Ok 0%Z
  | S754_finite s m e =>
      let a := if (0 <=? e)%Z then (Z.pos m * 2 ^ e)%Z
               else (Z.pos m / 2 ^ (- e))%Z in
      Ok (if s then (- a)%Z else a)
  | S754_infinity _ => Raise OverflowError
  | S754_nan => Raise ValueError
  end.

(** [int(a / b)] for integers [a] and [b]: the quotient of the true
    division is a binary64 value, rounded to nearest, and it is truncated
    towards zero. *)
Definition int_truediv (a b : Z) : result Z :=
  q <- truediv a b ;; int_of_float q.

(** The integers that binary64 holds exactly whatever their low bits. *)
Definition exact64 (z : Z) : Prop := (- 2 ^ 53 < z < 2 ^ 53)%Z.

(** The integer that a binary64 value is equal to, if it is an integer. *)
Definition float_int_value (x : spec_float) : option Z :=
  match x with
  | S754_zero _ => Some 0%Z
  | S754_finite s m e =>
      if (0 <=? e)%Z then Some (cond_Zopp s (Z.pos m * 2 ^ e))
      else if (Z.pos m mod 2 ^ (- e) =? 0)%Z
           then Some (cond_Zopp s (Z.pos m / 2 ^ (- e)))
           else None
  | _ => None
  end.

(** ** Samples and element types

    A sample of an array of an integer element type, or of a floating-point
    one no wider than float64 (a narrower float is the binary64 value it is
    equal to). *)
Inductive sample : Type :=
  | Int (z : Z)
  | Float (x : spec_float).

(** The element type of a float64 array: every sample is a float. *)
Definition is_float64 (s : sample) : Prop :=
  match s with
  | Float _ => True
  | Int _ => False
  end.

(** The cast applied when a sample is stored into a float64 array: an integer
    is converted with rounding to nearest, a float is kept. *)
Definition astype_float64 (s : sample) : sample :=
  match s with
  | Int z => Float (float_of_int z)
  | Float x => Float x
  end.

(** [np.zeros] of the default element type holds [+0.0]. *)
Definition float64_zero : sample := Float (S754_zero false).

(** A stored float64 sample [y] has the value of the sample [x] it was cast
    from. *)
Definition same_value (x y : sample) : Prop :=
  match x, y with
  | Int z, Float v => float_int_value v = Some z
  | Float u, Float v => u = v
  | _, Int _ => False
  end.

(** ** The functions of [helpers.py] *)

Section Helpers.

(** Sample type of the images, with the value read outside an array (never
    reached on indices within the shape). *)
Variable A : Type.
Variable nodata : A.

(** The float64 samples of [np.zeros], and the cast applied when a sample is
    stored into such an array. *)
Variable F : Type.
Variable fzero : F.
Variable to_float64 : A -> F.

(** [cv2.resize(arr, dsize, interpolation = cv2.INTER_AREA)], an external
    collaborator; [dsize] is (width, height). *)
Variable cv2_resize : ndarray A -> Z * Z -> result (ndarray A).

(** [resize(arr, width)] *)
Definition resize (arr : ndarray A) (width : Z) : result (ndarray A) :=
  w <- shape_at arr 1 ;;
  ratio <- truediv width (Z.of_nat w) ;;
  h <- shape_at arr 0 ;;
  height <- int_of_float (int_mul_float (Z.of_nat h) ratio) ;;
  let new_shape := (width, height) in
  cv2_resize arr new_shape.

(** [make_tiles(arr, tile_shape, pad)] for an array already in memory (the
    branch that loads a path from disk belongs to the I/O boundary).
    [range] cannot raise once both divisions have succeeded, so the two
    iterators of the comprehension are taken before it. *)
Definition make_tiles (arr : ndarray A) (tile_shape : Z * Z) (pad : nat)
  : result (ndarray A * Z * Z) :=
  let '(n_row_per_chunk, n_col_per_chunk) := tile_shape in
  w <- shape_at arr 1 ;;
  n_chunks_x <- int_truediv (Z.of_nat w) n_col_per_chunk ;;
  h <- shape_at arr 0 ;;
  n_chunks_y <- int_truediv (Z.of_nat h) n_row_per_chunk ;;
  let arr := slice2 nodata arr 0 (n_row_per_chunk * n_chunks_y)
                               0 (n_col_per_chunk * n_chunks_x) in
  xs <- py_range (Z.of_nat (nrows arr)) n_row_per_chunk ;;
  ys <- py_range (Z.of_nat (ncols arr)) n_col_per_chunk ;;
  let tiles :=
    flat_map (fun x =>
      map (fun y => slice2 nodata arr x (x + n_row_per_chunk)
                                      y (y + n_col_per_chunk)) ys) xs in
  tiles <- (if pad =? 0 then Ok tiles
            else mapM (np_pad_reflect nodata pad) tiles) ;;
  Ok (np_asarray tiles, n_chunks_x, n_chunks_y).

(** NumPy broadcasting of one axis of the assigned value onto the target. *)
Definition broadcasts (src dst : nat) : bool := (src =? dst) || (src =? 1).

(** The shape of a value assigned to an [n]-D target loses its leading axes
    of extent 1 while it has more than [n] axes. *)
Fixpoint squeeze_leading (n : nat) (s : list nat) : list nat :=
  match s with
  | 1 :: s' => if n <? length s then squeeze_leading n s' else s
  | _ => s
  end.

(** The three extents that a value of shape [s] is broadcast from onto a 3-D
    target: missing leading axes count as extent 1, and a value that keeps
    more than three axes cannot be broadcast. *)
Definition broadcast_shape3 (s : list nat) : option (nat * nat * nat) :=
  match squeeze_leading 3 s with
  | [] => Some (1, 1, 1)
  | [sc] => Some (1, 1, sc)
  | [sw; sc] => Some (1, sw, sc)
  | [sh; sw; sc] => Some (sh, sw, sc)
  | _ => None
  end.

(** [dst[r0:r1, c0:c1] = src] for a 3-D float64 [dst]: the value is broadcast
    to the slot and cast sample by sample. *)
Definition np_setitem2 (dst : ndarray F) (r0 r1 c0 c1 : Z) (src : ndarray A)
  : result (ndarray F) :=
  match shape dst, broadcast_shape3 (shape src) with
  | [h; w; c], Some (sh, sw, sc) =>
      let '(i0, h') := slice_bounds h r0 r1 in
      let '(j0, w') := slice_bounds w c0 c1 in
      let src := NdArray [sh; sw; sc] (data src) in
      if broadcasts sh h' && broadcasts sw w' && broadcasts sc c then
        Ok (NdArray [h; w; c]
              (tab3 h w c (fun i j k =>
                 if (i0 <=? i) && (i <? i0 + h') && (j0 <=? j) && (j <? j0 + w')
                 then to_float64
                        (px nodata src (if sh =? 1 then 0 else i - i0)
                                       (if sw =? 1 then 0 else j - j0)
                                       (if sc =? 1 then 0 else k))
                 else px fzero dst i j k)))
      else Raise ValueError
  | _, _ => Raise ValueError
  end.

(** The tile placed by iteration [ndx] of the loop of [stitch_tiles]:
    [tile_arr[ndx, crop:-crop, crop:-crop]] if [crop] is non-zero, and
    [tile_arr[ndx]] otherwise. *)
Definition input_tile (tile_arr : ndarray A) (crop ndx : nat) : ndarray A :=
  if crop =? 0 then index0 tile_arr ndx
  else slice2 nodata (index0 tile_arr ndx)
              (Z.of_nat crop) (- Z.of_nat crop)
              (Z.of_nat crop) (- Z.of_nat crop).

(** One iteration of the loop of [stitch_tiles]. *)
Definition stitch_step (tile_arr : ndarray A)
    (n_tiles_x n_tiles_y n_col_per_tile n_row_per_tile crop : nat)
    (stitch : ndarray F) (ndx : nat) : result (ndarray F) :=
  '(i, j) <- np_unravel_index ndx (n_tiles_y, n_tiles_x) ;;
  let i := i * n_row_per_tile in
  let j := j * n_col_per_tile in
  let tile := input_tile tile_arr crop ndx in
  np_setitem2 stitch (Z.of_nat i) (Z.of_nat (i + n_row_per_tile))
                     (Z.of_nat j) (Z.of_nat (j + n_col_per_tile)) tile.

(** [stitch_tiles(tile_arr, n_tiles_x, n_tiles_y, n_col_per_tile,
    n_row_per_tile, crop)]; the counts and extents are naturals
    ([np.zeros] refuses a negative extent). *)
Definition stitch_tiles (tile_arr : ndarray A)
    (n_tiles_x n_tiles_y n_col_per_tile n_row_per_tile crop : nat)
  : result (ndarray F) :=
  n_channels <- shape_at tile_arr 3 ;;
  let stitch := np_zeros fzero [n_row_per_tile * n_tiles_y;
                                n_col_per_tile * n_tiles_x;
                                n_channels] in
  n <- shape_at tile_arr 0 ;;
  foldM (stitch_step tile_arr n_tiles_x n_tiles_y
                     n_col_per_tile n_row_per_tile crop)
        (seq 0 n) stitch.

(** ** Reference description of the tiles

    The tile of band [(rb, cb)] of a grid of [tr] by [tc] tiles laid over
    [arr] from its top-left corner, and the tiles in row-major order of their
    bands. The comprehension of [make_tiles] is shown to build this list. *)
Definition tile_at (arr : ndarray A) (tr tc rb cb : nat) : ndarray A :=
  NdArray (tr :: tc :: skipn 2 (shape arr))
    (tab3 tr tc (depth arr)
       (fun i j k => px nodata arr (rb * tr + i) (cb * tc + j) k)).

Definition tiles_of (arr : ndarray A) (tr tc : nat) : list (ndarray A) :=
  flat_map (fun rb => map (tile_at arr tr tc rb) (seq 0 (ncols arr / tc)))
           (seq 0 (nrows arr / tr)).

(** The same tile with [pad] mirrored pixels on each of its four sides, for a
    3-D [arr], and the padded tiles in row-major order of their bands. *)
Definition padded_tile_at (arr : ndarray A) (tr tc pad rb cb : nat) : ndarray A :=
  NdArray [tr + 2 * pad; tc + 2 * pad; depth arr]
    (tab3 (tr + 2 * pad) (tc + 2 * pad) (depth arr)
       (fun i j k =>
          px nodata arr
             (rb * tr + reflect_index tr (Z.of_nat i - Z.of_nat pad))
             (cb * tc + reflect_index tc (Z.of_nat j - Z.of_nat pad)) k)).

Definition padded_tiles_of (arr : ndarray A) (tr tc pad : nat)
  : list (ndarray A) :=
  flat_map (fun rb =>
              map (padded_tile_at arr tr tc pad rb) (seq 0 (ncols arr / tc)))
           (seq 0 (nrows arr / tr)).


(** ** Reference description of the stitched image

    Row (or column) of a tile that is stored at row (or column) [i] of the
    output, for tiles of post-crop extent [extent] placed every [period]
    pixels: an extent of 1 is broadcast over the whole slot. *)
Definition src_index (extent period i : nat) : nat :=
  if extent =? 1 then 0 else i mod period.

(** State of the output of [stitch_tiles] once the tiles before index [k]
    have been placed, for a tile array of shape [(_, th, tw, c)]: the slots
    of these tiles hold their samples, cast, and the other slots are zero. *)
Definition stitched (tile_arr : ndarray A) (th tw c : nat)
    (n_tiles_x n_tiles_y n_col_per_tile n_row_per_tile crop k : nat)
    (s : ndarray F) : Prop :=
  shape s = [n_row_per_tile * n_tiles_y; n_col_per_tile * n_tiles_x; c]
  /\ length (data s)
     = n_row_per_tile * n_tiles_y * (n_col_per_tile * n_tiles_x) * c
  /\ forall i j ch,
       i < n_row_per_tile * n_tiles_y -> j < n_col_per_tile * n_tiles_x ->
       ch < c ->
       px fzero s i j ch
       = if i / n_row_per_tile * n_tiles_x + j / n_col_per_tile <? k
         then to_float64
                (px nodata
                    (input_tile tile_arr crop
                       (i / n_row_per_tile * n_tiles_x + j / n_col_per_tile))
                    (src_index (th - 2 * crop) n_row_per_tile i)
                    (src_index (tw - 2 * crop) n_col_per_tile j) ch)
         else fzero.

(** ** OpenCV and the height computed by [resize]

    [int(h * (width / w))], the height that [resize] passes to OpenCV. *)
Definition resize_height (h w width : Z) : result Z :=
  ratio <- truediv width w ;;
  int_of_float (int_mul_float h ratio).

(** What [resize] relies on from [cv2.resize]: an empty destination size is
    refused, and an array that is returned has [height] rows and [width]
    columns. *)
Record cv2_contract : Prop := {
  cv2_refuses : forall src w h,
    (w <= 0 \/ h <= 0)%Z -> cv2_resize src (w, h) = Raise cv2_error;
  cv2_shape : forall src w h dst,
    cv2_resize src (w, h) = Ok dst ->
    nrows dst = Z.to_nat h /\ ncols dst = Z.to_nat w
}.

(** A stand-in for [cv2.resize] with the geometry of OpenCV and
    nearest-neighbour samples, to run [resize] on concrete images: a 2-D or
    3-D source, and a single channel comes back without its axis. *)
Definition cv2_resize_nearest (src : ndarray A) (dsize : Z * Z)
  : result (ndarray A) :=
  let '(w, h) := dsize in
  match shape src with
  | sh :: sw :: rest =>
      if (w <=? 0)%Z || (h <=? 0)%Z || (sh =? 0) || (sw =? 0)
         || (1 <? length rest)
      then Raise cv2_error
      else Ok (NdArray (Z.to_nat h :: Z.to_nat w
                          :: match rest with [1] => [] | _ => rest end)
                 (tab3 (Z.to_nat h) (Z.to_nat w) (size rest)
                    (fun i j k => px nodata src (i * sh / Z.to_nat h)
                                                (j * sw / Z.to_nat w) k)))
  | _ => Raise cv2_error
  end.

End Helpers.

(** The height of [resize] against the exact floor of [h * width / w]: equal
    to it, or one below it. *)
Definition height_close (h w width : Z) : bool :=
  match resize_height h w width with
  | Ok x => ((x =? h * width / w) || (x =? h * width / w - 1))%Z
  | Raise _ => false
  end.

Definition heights_close_upto (n : nat) : bool :=
  forallb (fun h =>
    forallb (fun w =>
      forallb (fun t => height_close (Z.of_nat h) (Z.of_nat w) (Z.of_nat t))
              (seq 1 n))
            (seq 1 n))
          (seq 0 (S n)).

(** ** Sample arrays

    Integer samples 0, 1, 2, ... in row-major order, and their cast to
    binary64. *)
Definition ramp (s : list nat) : ndarray Z :=
  NdArray s (map Z.of_nat (seq 0 (size s))).

(** The same samples in an array of an integer element type. *)
Definition int_ramp (s : list nat) : ndarray sample :=
  NdArray s (map (fun n => Int (Z.of_nat n)) (seq 0 (size s))).

(** ** Raster files ([rio_open], [rio_save])

    Axis moves of NumPy, on the row-major samples. *)

(** [np.moveaxis(a, 0, len(a.shape) - 1)]: the first axis becomes the last.
    A 0-d array has no axis to move (NumPy's AxisError, a ValueError). *)
Definition np_moveaxis_first_last {T : Type} (d : T) (a : ndarray T)
  : result (ndarray T) :=
  match shape a with
  | [] => Raise ValueError
  | d0 :: rest =>
      Ok (NdArray (rest ++ [d0])
            (tab (size rest) (fun r =>
               map (fun k => nth (k * size rest + r) (data a) d) (seq 0 d0))))
  end.

(** [np.moveaxis(a, 2, 0)] for a 3-D array: the last axis becomes the first. *)
Definition np_moveaxis_2_0 {T : Type} (d : T) (a : ndarray T) : ndarray T :=
  match shape a with
  | [d0; d1; d2] =>
      NdArray [d2; d0; d1]
        (tab d2 (fun k =>
           map (fun r => nth (r * d2 + k) (data a) d) (seq 0 (d0 * d1))))
  | _ => a
  end.

(** [np.expand_dims(a, 0)] *)
Definition np_expand_dims_0 {T : Type} (a : ndarray T) : ndarray T :=
  NdArray (1 :: shape a) (data a).

Section RasterFiles.

Variable A : Type.
Variable nodata : A.

(** Paths are only handed to rasterio; [FS] is the state of the files. *)
Variable Path : Type.
Variable FS : Type.

(** [rasterio.open(path, 'r').read()]: the bands of the file, band first. *)
Variable rasterio_read : Path -> FS -> result (ndarray A).

(** [rasterio.open(path, 'w', driver = 'GTiff', count, height, width, dtype,
    compress = 'LZW').write(arr)] *)
Variable rasterio_write :
  Path -> nat -> nat -> nat -> ndarray A -> FS -> result FS.

(** [rio_open(img_path)] *)
Definition rio_open (img_path : Path) (fs : FS) : result (ndarray A) :=
  arr <- rasterio_read img_path fs ;;
  np_moveaxis_first_last nodata arr.

(** [rio_save(arr, img_path)] *)
Definition rio_save (arr : ndarray A) (img_path : Path) (fs : FS) : result FS :=
  let arr :=
    if ndim arr =? 2 then np_expand_dims_0 arr
    else if ndim arr =? 3 then np_moveaxis_2_0 nodata arr
    else arr in
  count <- shape_at arr 0 ;;
  height <- shape_at arr 1 ;;
  width <- shape_at arr 2 ;;
  rasterio_write img_path count height width arr fs.

(** What the pair relies on from rasterio: a file written with a 3-D array
    of its declared extents reads back as that array (the GeoTIFF is
    compressed without loss). *)
Definition rasterio_contract : Prop :=
  forall path count height width arr fs fs',
    shape arr = [count; height; width] ->
    rasterio_write path count height width arr fs = Ok fs' ->
    rasterio_read path fs' = Ok arr.

End RasterFiles.

(** An in-memory stand-in for rasterio, to run [rio_save] and [rio_open]:
    paths are numbers, and every path holds a raster (empty at first). *)
Definition mem_read {T : Type} (path : nat) (fs : nat -> ndarray T)
  : result (ndarray T) :=
  Ok (fs path).

Definition mem_write {T : Type} (path count height width : nat)
    (arr : ndarray T) (fs : nat -> ndarray T) : result (nat -> ndarray T) :=
  match shape arr with
  | [c; h; w] =>
      if (c =? count) && (h =? height) && (w =? width)
      then Ok (fun p => if p =? path then arr else fs p)
      else Raise ValueError
  | _ => Raise ValueError
  end.

Definition mem_empty {T : Type} : nat -> ndarray T :=
  fun _ => NdArray [0; 0; 0] [].


(** * Properties *)

(** ** Row-major tables *)

Section Tables.

Variable T : Type.

Lemma length_flat_map_uniform (X : Type) (g : X -> list T) (m : nat) (l : list X) :
  (forall x, In x l -> length (g x) = m) ->
  length (flat_map g l) = length l * m.
Proof.
  induction l as [|x l IH]; simpl; intros Hg; [reflexivity|].
  rewrite length_app, Hg, IH by auto. reflexivity.
Qed.

Lemma nth_flat_map_uniform (X : Type) (g : X -> list T) (m : nat) (l : list X)
    (x0 : X) (d : T) (i j : nat) :
  (forall x, In x l -> length (g x) = m) ->
  i < length l -> j < m ->
  nth (i * m + j) (flat_map g l) d = nth j (g (nth i l x0)) d.
Proof.
  revert i. induction l as [|x l IH]; simpl; intros i Hg Hi Hj; [lia|].
  destruct i as [|i]; simpl.
  - apply app_nth1. rewrite Hg by auto. exact Hj.
  - rewrite app_nth2 by (rewrite Hg by auto; lia).
    rewrite Hg by auto.
    replace (m + i * m + j - m) with (i * m + j) by lia.
    apply IH; auto. lia.
Qed.

Lemma length_tab (n m : nat) (g : nat -> list T) :
  (forall i, i < n -> length (g i) = m) -> length (tab n g) = n * m.
Proof.
  intros Hg. unfold tab.
  rewrite length_flat_map_uniform with (m := m), length_seq; [reflexivity|].
  intros x Hx. apply in_seq in Hx. apply Hg. lia.
Qed.

Lemma nth_tab (n m : nat) (g : nat -> list T) (d : T) (i j : nat) :
  (forall i, i < n -> length (g i) = m) ->
  i < n -> j < m ->
  nth (i * m + j) (tab n g) d = nth j (g i) d.
Proof.
  intros Hg Hi Hj. unfold tab.
  rewrite nth_flat_map_uniform with (x0 := 0); try assumption.
  - rewrite seq_nth by assumption. reflexivity.
  - intros x Hx. apply in_seq in Hx. apply Hg. lia.
  - rewrite length_seq. assumption.
Qed.

Lemma length_tab3 (h w c : nat) (f : nat -> nat -> nat -> T) :
  length (tab3 h w c f) = h * w * c.
Proof.
  unfold tab3. rewrite length_tab with (m := w * c); [lia|].
  intros i _. apply length_tab. intros j _.
  rewrite length_map, length_seq. reflexivity.
Qed.

Lemma nth_tab3 (h w c : nat) (f : nat -> nat -> nat -> T) (d : T) (i j k : nat) :
  i < h -> j < w -> k < c ->
  nth ((i * w + j) * c + k) (tab3 h w c f) d = f i j k.
Proof.
  intros Hi Hj Hk. unfold tab3.
  assert (Hin : forall i', length (tab w (fun j' => map (f i' j') (seq 0 c))) = w * c).
  { intros i'. apply length_tab. intros j' _.
    rewrite length_map, length_seq. reflexivity. }
  replace ((i * w + j) * c + k) with (i * (w * c) + (j * c + k)) by lia.
  rewrite nth_tab with (m := w * c); auto; [|nia].
  rewrite nth_tab with (m := c); auto.
  - rewrite nth_indep with (d' := f i j 0) by (rewrite length_map, length_seq; lia).
    rewrite map_nth, seq_nth by assumption. reflexivity.
  - intros j' _. rewrite length_map, length_seq. reflexivity.
Qed.

(** Two row-major tables of one shape with the same samples are equal. *)
Lemma list_eq_3d (h w c : nat) (l1 l2 : list T) (d : T) :
  length l1 = h * w * c -> length l2 = h * w * c ->
  (forall i j k, i < h -> j < w -> k < c ->
     nth ((i * w + j) * c + k) l1 d = nth ((i * w + j) * c + k) l2 d) ->
  l1 = l2.
Proof.
  intros H1 H2 Heq. apply nth_ext with (d := d) (d' := d); [congruence|].
  intros n Hn. rewrite H1 in Hn.
  assert (Hc : 0 < c) by nia. assert (Hw : 0 < w) by nia.
  pose proof (Nat.div_mod_eq n c) as E1.
  pose proof (Nat.div_mod_eq (n / c) w) as E2.
  pose proof (Nat.mod_upper_bound n c ltac:(lia)) as B1.
  pose proof (Nat.mod_upper_bound (n / c) w ltac:(lia)) as B2.
  assert (B3 : n / c / w < h).
  { apply Nat.Div0.div_lt_upper_bound. apply Nat.Div0.div_lt_upper_bound. nia. }
  replace n with ((n / c / w * w + (n / c) mod w) * c + n mod c) by nia.
  apply Heq; assumption.
Qed.

End Tables.

Section MoreTables.

Variable T : Type.

Lemma flat_map_in_ext (X : Type) (f g : X -> list T) (l : list X) :
  (forall x, In x l -> f x = g x) -> flat_map f l = flat_map g l.
Proof.
  induction l as [|x l IH]; simpl; intros H; [reflexivity|].
  rewrite H, IH by auto. reflexivity.
Qed.

Lemma tab3_ext (h w c : nat) (f g : nat -> nat -> nat -> T) :
  (forall i j k, i < h -> j < w -> k < c -> f i j k = g i j k) ->
  tab3 h w c f = tab3 h w c g.
Proof.
  intros H. unfold tab3, tab.
  apply flat_map_in_ext. intros i Hi. apply in_seq in Hi.
  apply flat_map_in_ext. intros j Hj. apply in_seq in Hj.
  apply map_ext_in. intros k Hk. apply in_seq in Hk.
  apply H; lia.
Qed.

(** The [n]-th block of a concatenation of blocks of one length. *)
Lemma block_flat_map_uniform (X : Type) (g : X -> list T) (m : nat)
    (l : list X) (x0 : X) (n : nat) :
  (forall x, In x l -> length (g x) = m) ->
  n < length l ->
  firstn m (skipn (n * m) (flat_map g l)) = g (nth n l x0).
Proof.
  revert n. induction l as [|x l IH]; simpl; intros n Hg Hn; [lia|].
  destruct n as [|n]; simpl.
  - rewrite firstn_app, Hg, Nat.sub_diag by auto. simpl.
    rewrite app_nil_r. apply firstn_all2. rewrite Hg by auto. lia.
  - rewrite skipn_app, Hg by auto.
    rewrite (skipn_all2 (g x)) by (rewrite Hg by auto; lia). simpl.
    replace (m + n * m - m) with (n * m) by lia.
    apply IH; auto. lia.
Qed.

Lemma mapM_ok (X Y : Type) (f : X -> result Y) (g : X -> Y) (l : list X) :
  (forall x, In x l -> f x = Ok (g x)) -> mapM f l = Ok (map g l).
Proof.
  induction l as [|x l IH]; simpl; intros H; [reflexivity|].
  rewrite H, IH by auto. reflexivity.
Qed.

End MoreTables.

(** ** Binary64: conversion and division of integers below [2^53]

    [float(z)] is exact for [|z| < 2^53], and the quotient of two such
    integers, rounded to nearest, truncates to their integer quotient. *)

Section Binary64.

Local Open Scope Z_scope.

Lemma digits2_pos_bounds (p : positive) :
  2 ^ (Zpos (digits2_pos p) - 1) <= Zpos p < 2 ^ Zpos (digits2_pos p).
Proof.
  induction p as [p IH|p IH|]; cbn [digits2_pos].
  - rewrite Pos2Z.inj_succ, (Pos2Z.inj_xI p).
    replace (Z.succ (Zpos (digits2_pos p)) - 1) with (Z.succ (Zpos (digits2_pos p) - 1)) by lia.
    rewrite !Z.pow_succ_r by lia.
    revert IH. generalize (2 ^ (Zpos (digits2_pos p) - 1)) (2 ^ Zpos (digits2_pos p)). lia.
  - rewrite Pos2Z.inj_succ, (Pos2Z.inj_xO p).
    replace (Z.succ (Zpos (digits2_pos p)) - 1) with (Z.succ (Zpos (digits2_pos p) - 1)) by lia.
    rewrite !Z.pow_succ_r by lia.
    revert IH. generalize (2 ^ (Zpos (digits2_pos p) - 1)) (2 ^ Zpos (digits2_pos p)). lia.
  - cbn. lia.
Qed.

Lemma Zdigits2_unique (m d : Z) :
  0 < m -> 2 ^ (d - 1) <= m < 2 ^ d -> Zdigits2 m = d.
Proof.
  intros Hm [Hlo Hhi]. destruct m as [|p|p]; try lia. cbn [Zdigits2].
  pose proof (digits2_pos_bounds p) as [Blo Bhi].
  destruct (Z.lt_trichotomy (Zpos (digits2_pos p)) d) as [L|[E|L]]; [|exact E|].
  - assert (2 ^ Zpos (digits2_pos p) <= 2 ^ (d - 1)) by (apply Z.pow_le_mono_r; lia). lia.
  - assert (0 <= d).
    { destruct (Z_lt_le_dec d 0) as [N|N]; [|exact N].
      rewrite (Z.pow_neg_r 2 d N) in Hhi. lia. }
    assert (2 ^ d <= 2 ^ (Zpos (digits2_pos p) - 1)) by (apply Z.pow_le_mono_r; lia). lia.
Qed.

Lemma iter_xO_pow (p k : positive) :
  Zpos (Pos.iter xO p k) = Zpos p * 2 ^ Zpos k.
Proof.
  induction k as [|k IH] using Pos.peano_ind.
  - cbn. lia.
  - rewrite Pos.iter_succ, Pos2Z.inj_xO, IH, Pos2Z.inj_succ, Z.pow_succ_r by lia. lia.
Qed.

Lemma shr_fexp_keep (m e : Z) (l : location) :
  Zdigits2 m = 53 -> -1074 <= e ->
  shr_fexp prec emax m e l = (shr_record_of_loc m l, e).
Proof.
  intros Hd He. unfold shr_fexp. rewrite Hd.
  unfold fexp, emin, prec, emax.
  replace (Z.max (53 + e - 53) (3 - 1024 - 53) - e) with 0 by lia.
  reflexivity.
Qed.

Lemma shr_fexp_one (m e : Z) (l : location) :
  Zdigits2 m = 54 -> -1074 <= e ->
  shr_fexp prec emax m e l = (shr_1 (shr_record_of_loc m l), e + 1).
Proof.
  intros Hd He. unfold shr_fexp. rewrite Hd.
  unfold fexp, emin, prec, emax.
  replace (Z.max (54 + e - 53) (3 - 1024 - 53) - e) with 1 by lia.
  reflexivity.
Qed.

Lemma loc_of_shr_record_of_loc (m : Z) (l : location) :
  loc_of_shr_record (shr_record_of_loc m l) = l.
Proof. destruct l as [|[| |]]; reflexivity. Qed.

Lemma shr_m_of_loc (m : Z) (l : location) : shr_m (shr_record_of_loc m l) = m.
Proof. destruct l as [|[| |]]; reflexivity. Qed.

Lemma round_up_half (m : Z) (l : location) :
  round_nearest_even m l = m
  \/ (round_nearest_even m l = m + 1
      /\ (l = loc_Inexact Eq \/ l = loc_Inexact Gt)).
Proof.
  destruct l as [|[| |]]; cbn; try (left; reflexivity).
  - destruct (Z.even m); [left; reflexivity|right; split; [reflexivity|left; reflexivity]].
  - right. split; [reflexivity|right; reflexivity].
Qed.

Lemma bra_54 (sx : bool) (q e : Z) (l : location) :
  2 ^ 53 <= q < 2 ^ 54 -> -1074 <= e <= 969 ->
  exists M E M0,
    binary_round_aux prec emax sx q e l = S754_finite sx M E
    /\ (M0 = q / 2 \/ (M0 = q / 2 + 1 /\ Z.odd q = true))
    /\ ((Zpos M = M0 /\ E = e + 1)
        \/ (M0 = 2 ^ 53 /\ Zpos M = 2 ^ 52 /\ E = e + 2)).
Proof.
  intros Hq He. unfold binary_round_aux.
  rewrite shr_fexp_one by (try apply Zdigits2_unique; lia).
  set (mrs := shr_1 (shr_record_of_loc q l)).
  assert (Hm : shr_m mrs = q / 2
               /\ ((loc_of_shr_record mrs = loc_Inexact Eq
                    \/ loc_of_shr_record mrs = loc_Inexact Gt) -> Z.odd q = true)).
  { subst mrs. destruct q as [|[p|p|]|p]; try lia.
    - split.
      + destruct l as [|[| |]]; cbn [shr_record_of_loc shr_1 shr_m];
          rewrite (Pos2Z.inj_xI p); apply (Z.div_unique _ 2 _ 1); lia.
      + intros _. reflexivity.
    - split.
      + destruct l as [|[| |]]; cbn [shr_record_of_loc shr_1 shr_m];
          rewrite (Pos2Z.inj_xO p); apply (Z.div_unique _ 2 _ 0); lia.
      + destruct l as [|[| |]]; cbn; intros [H|H]; discriminate H. }
  destruct Hm as [Hm Hl]. set (q2 := q / 2) in *.
  assert (Hq2 : 2 ^ 52 <= q2 < 2 ^ 53).
  { subst q2. split.
    - apply Z.div_le_lower_bound; lia.
    - apply Z.div_lt_upper_bound; lia. }
  rewrite Hm. set (l' := loc_of_shr_record mrs) in *.
  set (m' := round_nearest_even q2 l').
  assert (Hm' : m' = q2 \/ (m' = q2 + 1 /\ Z.odd q = true)).
  { destruct (round_up_half q2 l') as [H|[H H']]; [left; exact H|right].
    split; [exact H|]. apply Hl. exact H'. }
  destruct (Z.eq_dec m' (2 ^ 53)) as [E53|N53].
  - rewrite shr_fexp_one by (try apply Zdigits2_unique; lia).
    rewrite E53. cbn [shr_record_of_loc].
    change (2 ^ 53) with 9007199254740992. cbn [shr_1 shr_m orb].
    unfold emax, prec.
    destruct (Z.leb_spec (e + 1 + 1) (1024 - 53)); [|lia].
    exists 4503599627370496%positive, (e + 1 + 1), m'.
    split; [reflexivity|]. split; [exact Hm'|].
    right. split; [exact E53|]. split; [reflexivity|lia].
  - rewrite shr_fexp_keep by (try apply Zdigits2_unique; lia).
    rewrite shr_m_of_loc.
    assert (Hpos : 0 < m') by lia.
    destruct m' as [|p|p] eqn:Ep; try lia.
    unfold emax, prec. destruct (Z.leb_spec (e + 1) (1024 - 53)); [|lia].
    exists p, (e + 1), (Zpos p).
    split; [reflexivity|]. split; [exact Hm'|].
    left. split; reflexivity.
Qed.

Lemma bra_53 (sx : bool) (m e : Z) (l : location) :
  2 ^ 52 <= m < 2 ^ 53 -> -1074 <= e <= 970 ->
  exists M E M0,
    binary_round_aux prec emax sx m e l = S754_finite sx M E
    /\ (M0 = m \/ (M0 = m + 1 /\ (l = loc_Inexact Eq \/ l = loc_Inexact Gt)))
    /\ ((Zpos M = M0 /\ E = e)
        \/ (M0 = 2 ^ 53 /\ Zpos M = 2 ^ 52 /\ E = e + 1)).
Proof.
  intros Hm He. unfold binary_round_aux.
  rewrite shr_fexp_keep by (try apply Zdigits2_unique; lia).
  rewrite loc_of_shr_record_of_loc, shr_m_of_loc.
  set (m' := round_nearest_even m l).
  assert (Hm' : m' = m \/ (m' = m + 1 /\ (l = loc_Inexact Eq \/ l = loc_Inexact Gt)))
    by apply round_up_half.
  destruct (Z.eq_dec m' (2 ^ 53)) as [E53|N53].
  - rewrite shr_fexp_one by (try apply Zdigits2_unique; lia).
    rewrite E53. cbn [shr_record_of_loc].
    change (2 ^ 53) with 9007199254740992. cbn [shr_1 shr_m orb].
    unfold emax, prec.
    destruct (Z.leb_spec (e + 1) (1024 - 53)); [|lia].
    exists 4503599627370496%positive, (e + 1), m'.
    split; [reflexivity|]. split; [exact Hm'|].
    right. split; [exact E53|]. split; reflexivity.
  - rewrite shr_fexp_keep by (try apply Zdigits2_unique; lia).
    rewrite shr_m_of_loc.
    assert (Hpos : 0 < m') by lia.
    destruct m' as [|p|p] eqn:Ep; try lia.
    unfold emax, prec. destruct (Z.leb_spec e (1024 - 53)); [|lia].
    exists p, e, (Zpos p).
    split; [reflexivity|]. split; [exact Hm'|].
    left. split; reflexivity.
Qed.

Lemma new_location_half (n r : Z) :
  0 < n -> 0 <= r < n ->
  new_location n r = loc_Inexact Eq \/ new_location n r = loc_Inexact Gt ->
  n <= 2 * r.
Proof.
  intros Hn Hr. unfold new_location, new_location_even, new_location_odd.
  destruct (Z.even n) eqn:Ev.
  - destruct (Z.eqb_spec r 0) as [->|Hz]; [intros [H|H]; discriminate H|].
    destruct (Z.compare_spec (2 * r) n) as [E|L|G]; intros [H|H]; try discriminate H; lia.
  - destruct (Z.eqb_spec r 0) as [->|Hz]; [intros [H|H]; discriminate H|].
    destruct (Z.compare_spec (2 * r + 1) n) as [E|L|G]; intros [H|H]; try discriminate H; lia.
Qed.

(** Truncation of a quotient [a / b] rounded to 53 bits at the scale [P]: the
    rounding cannot reach the next integer while [a < 2^53]. *)
Lemma trunc_round (a b P Q R M : Z) :
  0 < b -> 0 <= a < 2 ^ 53 -> 1 <= P ->
  a * P = Q * b + R -> 0 <= R < b -> 2 ^ 52 <= Q ->
  (M = Q \/ (M = Q + 1 /\ b <= 2 * R)) ->
  M / P = a / b.
Proof.
  intros Hb Ha HP HN HR HQ HM.
  change (2 ^ 53) with 9007199254740992 in *.
  change (2 ^ 52) with 4503599627370496 in *.
  pose proof (Z.div_mod a b ltac:(lia)) as Hd.
  pose proof (Z.mod_pos_bound a b Hb) as Hr.
  set (k := a / b) in *. set (rho := a mod b) in *.
  assert (Hk : 0 <= k) by (apply Z.div_pos; lia).
  assert (Hlo : k * P <= Q).
  { assert (b * (k * P) < b * (Q + 1)) by nia. apply Z.mul_lt_mono_pos_l in H; lia. }
  assert (Hhi : Q < (k + 1) * P).
  { assert (b * Q < b * ((k + 1) * P)) by nia. apply Z.mul_lt_mono_pos_l in H; lia. }
  assert (HMlo : k * P <= M) by lia.
  assert (HMhi : M < (k + 1) * P).
  { destruct HM as [->|[-> Hhalf]]; [exact Hhi|].
    destruct (Z.eq_dec (Q + 1) ((k + 1) * P)) as [E|N]; [exfalso|lia].
    set (dl := (k + 1) * b - a).
    assert (Hdl : 1 <= dl) by (subst dl; nia).
    assert (E1 : dl * P = b - R) by (subst dl; nia).
    assert (E2 : 2 * P <= b) by nia.
    assert (E3 : (9007199254740992 + 1) * b <= 2 * P * a).
    { replace (2 * P * a) with (2 * ((k + 1) * P) * b - 2 * (dl * P)) by (subst dl; ring).
      rewrite <- E, E1. nia. }
    nia. }
  symmetry. apply (Z.div_unique M P k (M - k * P)); lia.
Qed.

Lemma bra_exact (sx : bool) (m : positive) (e : Z) :
  2 ^ 52 <= Zpos m < 2 ^ 53 -> -1074 <= e <= 970 ->
  binary_round_aux prec emax sx (Zpos m) e loc_Exact = S754_finite sx m e.
Proof.
  intros Hm He. unfold binary_round_aux.
  rewrite shr_fexp_keep by (try apply Zdigits2_unique; lia).
  cbn [shr_record_of_loc loc_of_shr_record shr_m round_nearest_even].
  rewrite shr_fexp_keep by (try apply Zdigits2_unique; lia).
  cbn [shr_record_of_loc shr_m].
  unfold emax, prec. destruct (Z.leb_spec e (1024 - 53)); [reflexivity|lia].
Qed.

(** [float(z)] for [0 < |z| < 2^53] is a normal number of value [z]. *)
Lemma binary_round_small (p : positive) :
  Zpos p < 2 ^ 53 ->
  exists m e,
    (forall sx, binary_round prec emax sx p 0 = S754_finite sx m e)
    /\ Zpos m = Zpos p * 2 ^ (- e) /\ -52 <= e <= 0
    /\ 2 ^ 52 <= Zpos m < 2 ^ 53.
Proof.
  intros Hp. unfold binary_round.
  pose proof (digits2_pos_bounds p) as [Blo Bhi].
  set (d := Zpos (digits2_pos p)) in *.
  assert (Hd : 1 <= d <= 53).
  { split; [subst d; lia|].
    destruct (Z_le_gt_dec d 53) as [L|G]; [exact L|].
    assert (2 ^ 53 <= 2 ^ (d - 1)) by (apply Z.pow_le_mono_r; lia). lia. }
  unfold fexp, emin. fold d.
  replace (Z.max (d + 0 - prec) (3 - emax - prec)) with (d - 53)
    by (unfold prec, emax; lia).
  unfold shl_align.
  destruct (d - 53 - 0) as [|k|k] eqn:Ek; try lia.
  - assert (d = 53) by lia.
    assert (Hr : 2 ^ 52 <= Zpos p < 2 ^ 53).
    { replace 52 with (d - 1) by lia. rewrite <- H. lia. }
    exists p, 0. split; [intros sx; replace (d - 53) with 0 by lia; apply bra_exact; [exact Hr|lia]|].
    cbn [Z.opp]. rewrite Z.pow_0_r.
    split; [lia|]. split; [lia|exact Hr].
  - assert (Hm : Zpos (Pos.iter xO p k) = Zpos p * 2 ^ (53 - d)).
    { rewrite iter_xO_pow. f_equal. f_equal. lia. }
    assert (Hr : 2 ^ 52 <= Zpos (Pos.iter xO p k) < 2 ^ 53).
    { rewrite Hm. replace 52 with (d - 1 + (53 - d)) by lia.
      replace (2 ^ 53) with (2 ^ (d + (53 - d))) by (f_equal; lia).
      rewrite !Z.pow_add_r by lia.
      assert (0 < 2 ^ (53 - d)) by (apply Z.pow_pos_nonneg; lia).
      split; [apply Z.mul_le_mono_nonneg_r; lia|apply Z.mul_lt_mono_pos_r; lia]. }
    exists (Pos.iter xO p k), (d - 53).
    split; [intros sx; apply bra_exact; [exact Hr|lia]|].
    split; [rewrite Hm; f_equal; f_equal; lia|].
    split; [lia|exact Hr].
Qed.

Lemma float_of_int_small (z : Z) :
  0 < z < 2 ^ 53 ->
  exists m e,
    float_of_int z = S754_finite false m e
    /\ float_of_int (- z) = S754_finite true m e
    /\ Zpos m = z * 2 ^ (- e) /\ -52 <= e <= 0
    /\ 2 ^ 52 <= Zpos m < 2 ^ 53.
Proof.
  intros Hz. destruct z as [|p|p]; try lia.
  destruct (@binary_round_small p) as (m & e & E & Hm & He & Hr); [lia|].
  exists m, e. split; [exact (E false)|]. split; [exact (E true)|].
  split; [exact Hm|]. split; [exact He|exact Hr].
Qed.

(** The bit length of a positive integer below [2^53]. *)
Lemma Zdigits2_small (z : Z) :
  0 < z < 2 ^ 53 ->
  1 <= Zdigits2 z <= 53
  /\ 2 ^ (Zdigits2 z - 1) <= z < 2 ^ Zdigits2 z.
Proof.
  intros Hz. destruct z as [|p|p]; try lia. cbn [Zdigits2].
  pose proof (digits2_pos_bounds p) as B. split; [|exact B].
  split; [lia|].
  destruct (Z_le_gt_dec (Zpos (digits2_pos p)) 53) as [L|G]; [exact L|].
  assert (2 ^ 53 <= 2 ^ (Zpos (digits2_pos p) - 1)) by (apply Z.pow_le_mono_r; lia).
  lia.
Qed.

(** The quotient of two positive integers below [2^53], before it is rounded:
    the dividend is scaled so that the quotient has 53 or 54 bits. *)
Lemma SFdiv_core_small (a b : Z) :
  0 < a < 2 ^ 53 -> 0 < b < 2 ^ 53 ->
  exists t,
    1 <= t <= 105
    /\ SFdiv_core_binary prec emax a 0 b 0
       = ((a * 2 ^ t) / b, - t, new_location b ((a * 2 ^ t) mod b))
    /\ 2 ^ 52 <= (a * 2 ^ t) / b < 2 ^ 54.
Proof.
  intros Ha Hb.
  destruct (Zdigits2_small Ha) as [Hda Ba].
  destruct (Zdigits2_small Hb) as [Hdb Bb].
  set (da := Zdigits2 a) in *. set (db := Zdigits2 b) in *.
  exists (53 + db - da). split; [lia|]. split.
  - unfold SFdiv_core_binary. fold da db.
    unfold fexp, emin, prec, emax.
    replace (Z.min (Z.max (da + 0 - (db + 0) - 53) (3 - 1024 - 53)) (0 - 0))
      with (da - db - 53) by lia.
    replace (0 - 0 - (da - db - 53)) with (53 + db - da) by lia.
    destruct (53 + db - da) as [|t|t] eqn:Et; try lia.
    rewrite Z.shiftl_mul_pow2 by lia.
    unfold Z.div, Z.modulo.
    destruct (Z.div_eucl (a * 2 ^ Zpos t) b) as [q r].
    replace (da - db - 53) with (- Zpos t) by lia. reflexivity.
  - assert (E1 : 2 ^ (da - 1) * 2 ^ (53 + db - da) = 2 ^ 52 * 2 ^ db).
    { rewrite <- !Z.pow_add_r by lia. f_equal. lia. }
    assert (E2 : 2 ^ da * 2 ^ (53 + db - da) = 2 ^ 54 * 2 ^ (db - 1)).
    { rewrite <- !Z.pow_add_r by lia. f_equal. lia. }
    assert (Hp : 0 < 2 ^ (53 + db - da)) by (apply Z.pow_pos_nonneg; lia).
    assert (L1 : 2 ^ 52 * 2 ^ db <= a * 2 ^ (53 + db - da)).
    { rewrite <- E1. apply Z.mul_le_mono_nonneg_r; lia. }
    assert (L2 : a * 2 ^ (53 + db - da) < 2 ^ 54 * 2 ^ (db - 1)).
    { rewrite <- E2. apply Z.mul_lt_mono_pos_r; lia. }
    split.
    + apply Z.div_le_lower_bound; [lia|].
      apply Z.le_trans with (2 ^ 52 * 2 ^ db); [|exact L1].
      rewrite (Z.mul_comm b). apply Z.mul_le_mono_nonneg_l; lia.
    + apply Z.div_lt_upper_bound; [lia|].
      apply Z.lt_le_trans with (2 ^ 54 * 2 ^ (db - 1)); [exact L2|].
      rewrite (Z.mul_comm b). apply Z.mul_le_mono_nonneg_l; lia.
Qed.

Lemma int_value_nonpos (m E : Z) :
  E <= 0 ->
  (if 0 <=? E then m * 2 ^ E else m / 2 ^ (- E)) = m / 2 ^ (- E).
Proof.
  intros HE. destruct (Z.leb_spec 0 E) as [L|L]; [|reflexivity].
  replace E with 0 by lia. cbn [Z.opp]. rewrite Z.pow_0_r, Z.div_1_r. lia.
Qed.

(** The value of a mantissa that the rounding carried to [2^53]. *)
Lemma carry_value (M0 P E : Z) (M : positive) :
  M0 = 2 ^ 53 -> Zpos M = 2 ^ 52 -> 1 <= 2 ^ (- E) -> P = 2 * 2 ^ (- E) ->
  Zpos M / 2 ^ (- E) = M0 / P.
Proof.
  intros -> -> HP ->. change (2 ^ 53) with (2 * 2 ^ 52).
  rewrite Z.div_mul_cancel_l by lia. reflexivity.
Qed.

(** The rounded quotient of two positive integers below [2^53] is a finite
    number whose integer part is their integer quotient. *)
Lemma rounded_quotient_small (a b : Z) (sx : bool) :
  0 < a < 2 ^ 53 -> 0 < b < 2 ^ 53 ->
  exists M E,
    (let '(q, e, l) := SFdiv_core_binary prec emax a 0 b 0 in
     binary_round_aux prec emax sx q e l) = S754_finite sx M E
    /\ (if 0 <=? E then Zpos M * 2 ^ E else Zpos M / 2 ^ (- E)) = a / b.
Proof.
  intros Ha Hb.
  destruct (SFdiv_core_small Ha Hb) as (t & Ht & Ecore & Hq). rewrite Ecore.
  set (e' := - t). set (P := 2 ^ t) in *. set (N := a * P) in *.
  pose proof (Z.div_mod N b ltac:(lia)) as Hdiv.
  pose proof (Z.mod_pos_bound N b ltac:(lia)) as HR.
  set (q := N / b) in *. set (R := N mod b) in *.
  change (2 ^ 54) with 18014398509481984 in Hq.
  change (2 ^ 53) with 9007199254740992 in *.
  change (2 ^ 52) with 4503599627370496 in *.
  assert (HPge : 2 <= P).
  { subst P. replace t with (Z.succ (t - 1)) by lia.
    rewrite Z.pow_succ_r by lia.
    assert (0 < 2 ^ (t - 1)) by (apply Z.pow_pos_nonneg; lia). lia. }
  destruct (Z_lt_le_dec q 9007199254740992) as [H53|H54].
  - destruct (@bra_53 sx q e' (new_location b R))
      as (M & E & M0 & EQ & HM0 & HME); [lia|subst e'; lia|].
    exists M, E. split; [exact EQ|].
    assert (Hval : M0 / P = a / b).
    { apply (@trunc_round a b P q R M0);
        [lia|change (2 ^ 53) with 9007199254740992; lia|lia|subst N; lia|exact HR
        |change (2 ^ 52) with 4503599627370496; lia|].
      destruct HM0 as [H|[H Hl]]; [left; exact H|right].
      split; [exact H|].
      apply new_location_half; [lia|exact HR|exact Hl]. }
    destruct HME as [[HM HE]|(HM1 & HM2 & HE)].
    + rewrite int_value_nonpos by (subst e'; lia).
      rewrite HM, HE. subst e'. rewrite Z.opp_involutive. exact Hval.
    + rewrite int_value_nonpos by (subst e'; lia).
      rewrite <- Hval. apply carry_value; [exact HM1|exact HM2| |].
      * assert (0 < 2 ^ (- E)) by (apply Z.pow_pos_nonneg; subst e'; lia). lia.
      * subst P. rewrite HE. rewrite <- Z.pow_succ_r by (subst e'; lia).
        f_equal. subst e'. lia.
  - destruct (@bra_54 sx q e' (new_location b R))
      as (M & E & M0 & EQ & HM0 & HME); [lia|subst e'; lia|].
    exists M, E. split; [exact EQ|].
    set (P' := 2 ^ (t - 1)).
    assert (HP' : P = 2 * P').
    { subst P P'. rewrite <- Z.pow_succ_r by lia. f_equal. lia. }
    assert (HP'1 : 1 <= P').
    { assert (0 < P') by (subst P'; apply Z.pow_pos_nonneg; lia). lia. }
    pose proof (Z.div_mod q 2 ltac:(lia)) as Hq2.
    pose proof (Z.mod_pos_bound q 2 ltac:(lia)) as Hb2.
    set (Q := q / 2) in *.
    assert (Hodd : Z.odd q = true -> q mod 2 = 1).
    { intros Ho. rewrite Zmod_odd, Ho. reflexivity. }
    set (R' := a * P' - Q * b).
    assert (E2 : 2 * R' = (q mod 2) * b + R).
    { subst R'. replace (2 * (a * P' - Q * b)) with (a * P - 2 * Q * b)
        by (rewrite HP'; ring).
      fold N. rewrite Hdiv. rewrite Hq2 at 1. ring. }
    assert (HR' : 0 <= R' < b).
    { assert (Hbit : q mod 2 = 0 \/ q mod 2 = 1) by lia.
      destruct Hbit as [Hbit|Hbit]; rewrite Hbit in E2; lia. }
    assert (Hval : M0 / P' = a / b).
    { apply (@trunc_round a b P' Q R' M0);
        [lia|change (2 ^ 53) with 9007199254740992; lia|lia|subst R'; ring|exact HR'
        |change (2 ^ 52) with 4503599627370496; lia|].
      destruct HM0 as [H|[H Ho]]; [left; exact H|right].
      split; [exact H|]. apply Hodd in Ho. rewrite Ho in E2. lia. }
    destruct HME as [[HM HE]|(HM1 & HM2 & HE)].
    + rewrite int_value_nonpos by (subst e'; lia).
      rewrite HM, HE. replace (- (e' + 1)) with (t - 1) by (subst e'; lia).
      exact Hval.
    + assert (HP'2 : P' <> 1).
      { intros E1. rewrite E1, Z.div_1_r in Hval.
        assert (a <= b * a) by (clear - Ha Hb; nia).
        assert (a / b <= a) by (apply Z.div_le_upper_bound; lia). lia. }
      assert (Ht2 : 2 <= t).
      { destruct (Z_le_gt_dec 2 t) as [L|G]; [exact L|].
        exfalso. apply HP'2. subst P'. replace (t - 1) with 0 by lia.
        reflexivity. }
      rewrite int_value_nonpos by (subst e'; lia).
      rewrite <- Hval. apply carry_value; [exact HM1|exact HM2| |].
      * assert (0 < 2 ^ (- E)) by (apply Z.pow_pos_nonneg; subst e'; lia). lia.
      * subst P'. rewrite HE. rewrite <- Z.pow_succ_r by (subst e'; lia).
        f_equal. subst e'. lia.
Qed.

(** [int(a / b)] is the integer quotient, truncated towards zero, for a
    dividend in [0, 2^53) and a non-zero divisor in (-2^53, 2^53). *)
Lemma int_truediv_exact (a b : Z) :
  0 <= a < 2 ^ 53 -> b <> 0 -> - 2 ^ 53 < b < 2 ^ 53 ->
  int_truediv a b = Ok (Z.quot a b).
Proof.
  intros Ha Hb0 Hb. unfold int_truediv, truediv.
  destruct (Z.eqb_spec b 0) as [E|_]; [contradiction|].
  destruct (Z.eqb_spec a 0) as [->|Ha0].
  - reflexivity.
  - destruct (Z.ltb_spec a 0) as [L|_]; [lia|]. cbn [xorb].
    rewrite (Z.abs_eq a) by lia.
    destruct (@rounded_quotient_small a (Z.abs b) (b <? 0))
      as (M & E & EQ & Hv); [lia|lia|].
    destruct (SFdiv_core_binary prec emax a 0 (Z.abs b) 0) as [[q e] l].
    rewrite EQ. cbn [is_finite bind int_of_float]. rewrite Hv. f_equal.
    destruct (Z.ltb_spec b 0) as [L|L].
    + replace b with (- Z.abs b) at 2 by lia.
      rewrite Z.quot_opp_r by lia. rewrite Z.quot_div_nonneg by lia. reflexivity.
    + rewrite Z.abs_eq by lia. rewrite Z.quot_div_nonneg by lia. reflexivity.
Qed.

(** [float(z)] has the value [z] for [|z| < 2^53]. *)
Lemma float_of_int_exact (z : Z) :
  exact64 z -> float_int_value (float_of_int z) = Some z.
Proof.
  unfold exact64. intros Hz.
  assert (Hval : forall (s : bool) (m : positive) (e z' : Z),
             Zpos m = z' * 2 ^ (- e) -> -52 <= e <= 0 ->
             float_int_value (S754_finite s m e) = Some (cond_Zopp s z')).
  { intros s m e z' Hm He. unfold float_int_value.
    assert (Hp : 0 < 2 ^ (- e)) by (apply Z.pow_pos_nonneg; lia).
    destruct (Z.leb_spec 0 e) as [L|L].
    - replace e with 0 in * by lia. cbn [Z.opp] in Hm.
      rewrite Z.pow_0_r in *. do 2 f_equal. lia.
    - rewrite Hm, Z.mod_mul by lia. cbn [Z.eqb].
      rewrite Z.div_mul by lia. reflexivity. }
  destruct (Z.lt_trichotomy z 0) as [N|[->|P]].
  - destruct (@float_of_int_small (- z)) as (m & e & _ & E & Hm & He & _); [lia|].
    rewrite Z.opp_involutive in E. rewrite E.
    rewrite (Hval true m e (- z) Hm He). cbn [cond_Zopp]. f_equal. lia.
  - reflexivity.
  - destruct (@float_of_int_small z) as (m & e & E & _ & Hm & He & _); [lia|].
    rewrite E. apply (Hval false m e z Hm He).
Qed.

End Binary64.

(** ** Python integers and slices *)

Lemma exact64_le (a b : nat) :
  a <= b -> exact64 (Z.of_nat b) -> exact64 (Z.of_nat a).
Proof. unfold exact64. lia. Qed.

Lemma int_truediv_nat (a b : nat) :
  0 < b -> exact64 (Z.of_nat a) -> exact64 (Z.of_nat b) ->
  int_truediv (Z.of_nat a) (Z.of_nat b) = Ok (Z.of_nat (a / b)).
Proof.
  unfold exact64. intros Hb Ha Hb'.
  rewrite int_truediv_exact by lia.
  rewrite Z.quot_div_nonneg by lia. rewrite Nat2Z.inj_div. reflexivity.
Qed.

Lemma slice_bounds_nat (len a b : nat) :
  a <= b -> b <= len ->
  slice_bounds len (Z.of_nat a) (Z.of_nat b) = (a, b - a).
Proof.
  intros Hab Hb. unfold slice_bounds, slice_index.
  destruct (Z.ltb_spec (Z.of_nat a) 0); [lia|].
  destruct (Z.ltb_spec (Z.of_nat b) 0); [lia|].
  f_equal; lia.
Qed.

Lemma py_range_nat (n step : nat) :
  0 < step ->
  py_range (Z.of_nat (step * n)) (Z.of_nat step)
  = Ok (map (fun k => Z.of_nat (k * step)) (seq 0 n)).
Proof.
  intros Hs. unfold py_range.
  destruct (Z.eqb_spec (Z.of_nat step) 0); [lia|].
  destruct (Z.ltb_spec 0 (Z.of_nat step)); [|lia].
  replace ((Z.of_nat (step * n) + Z.of_nat step - 1) / Z.of_nat step)%Z
    with (Z.of_nat n).
  - rewrite Nat2Z.id. f_equal. apply map_ext. intros k. lia.
  - apply Z.div_unique with (r := (Z.of_nat step - 1)%Z); lia.
Qed.

Lemma reflect_index_lt (n : nat) (t : Z) : 0 < n -> reflect_index n t < n.
Proof.
  intros Hn. unfold reflect_index.
  destruct (Nat.leb_spec n 1); [lia|].
  pose proof (Z.mod_pos_bound t (2 * (Z.of_nat n - 1)) ltac:(lia)) as B.
  destruct (Z.ltb_spec (t mod (2 * (Z.of_nat n - 1))) (Z.of_nat n)); lia.
Qed.

Lemma reflect_index_inside (n i : nat) :
  i < n -> reflect_index n (Z.of_nat i) = i.
Proof.
  intros Hi. unfold reflect_index.
  destruct (Nat.leb_spec n 1); [lia|].
  rewrite Z.mod_small by lia.
  destruct (Z.ltb_spec (Z.of_nat i) (Z.of_nat n)); lia.
Qed.



(** ** The tiles built by [make_tiles] *)

Section Tiler.

Variable A : Type.
Variable nodata : A.

Lemma flat_map_map_map (X Y U V : Type) (gx : X -> U) (gy : Y -> V)
    (S : U -> V -> ndarray A) (lx : list X) (ly : list Y) :
  flat_map (fun x => map (fun y => S x y) (map gy ly)) (map gx lx)
  = flat_map (fun rb => map (fun cb => S (gx rb) (gy cb)) ly) lx.
Proof.
  induction lx as [|x lx IH]; simpl; [reflexivity|].
  rewrite map_map, IH. reflexivity.
Qed.

Lemma shape_at_0 (T : Type) (a : ndarray T) (h : nat) (s : list nat) :
  shape a = h :: s -> shape_at a 0 = Ok h.
Proof. intros E. unfold shape_at. rewrite E. reflexivity. Qed.

Lemma shape_at_1 (T : Type) (a : ndarray T) (h w : nat) (s : list nat) :
  shape a = h :: w :: s -> shape_at a 1 = Ok w.
Proof. intros E. unfold shape_at. rewrite E. reflexivity. Qed.

(** A slice of the cropped image that covers one band is the tile of that
    band. *)
Lemma slice2_band (arr : ndarray A) (h w : nat) (rest : list nat)
    (tr tc ny nx rb cb : nat) :
  shape arr = h :: w :: rest ->
  tr * ny <= h -> tc * nx <= w -> rb < ny -> cb < nx ->
  slice2 nodata
    (slice2 nodata arr 0 (Z.of_nat tr * Z.of_nat ny) 0 (Z.of_nat tc * Z.of_nat nx))
    (Z.of_nat (rb * tr)) (Z.of_nat (rb * tr) + Z.of_nat tr)
    (Z.of_nat (cb * tc)) (Z.of_nat (cb * tc) + Z.of_nat tc)
  = tile_at nodata arr tr tc rb cb.
Proof.
  intros Hs Hh Hw Hrb Hcb.
  unfold slice2 at 2. rewrite Hs.
  rewrite <- !Nat2Z.inj_mul. change 0%Z with (Z.of_nat 0).
  rewrite !slice_bounds_nat by lia. rewrite !Nat.sub_0_r.
  unfold slice2. cbn [shape].
  rewrite <- !Nat2Z.inj_add.
  rewrite !slice_bounds_nat by nia.
  replace (rb * tr + tr - rb * tr) with tr by lia.
  replace (cb * tc + tc - cb * tc) with tc by lia.
  unfold tile_at, depth. rewrite Hs. cbn [skipn].
  f_equal. apply tab3_ext. intros i j k Hi Hj Hk.
  unfold px at 1. unfold ncols, depth. cbn [shape data nth skipn].
  rewrite nth_tab3 by nia. reflexivity.
Qed.

Lemma make_tiles_unfold (arr : ndarray A) (h w : nat) (rest : list nat)
    (tr tc pad : nat) :
  shape arr = h :: w :: rest -> 0 < tr -> 0 < tc ->
  exact64 (Z.of_nat h) -> exact64 (Z.of_nat w) ->
  exact64 (Z.of_nat tr) -> exact64 (Z.of_nat tc) ->
  make_tiles nodata arr (Z.of_nat tr, Z.of_nat tc) pad
  = (tiles <- (if pad =? 0 then Ok (tiles_of nodata arr tr tc)
               else mapM (np_pad_reflect nodata pad) (tiles_of nodata arr tr tc)) ;;
     Ok (np_asarray tiles, Z.of_nat (w / tc), Z.of_nat (h / tr))).
Proof.
  intros Hs Htr Htc Bh Bw Btr Btc. unfold make_tiles.
  rewrite (shape_at_1 _ Hs), (shape_at_0 _ Hs). cbn [bind].
  rewrite !int_truediv_nat by assumption. cbn [bind].
  pose proof (Nat.Div0.mul_div_le h tr) as Hh.
  pose proof (Nat.Div0.mul_div_le w tc) as Hw.
  assert (Hr : nrows (slice2 nodata arr 0 (Z.of_nat tr * Z.of_nat (h / tr))
                        0 (Z.of_nat tc * Z.of_nat (w / tc))) = tr * (h / tr)
             /\ ncols (slice2 nodata arr 0 (Z.of_nat tr * Z.of_nat (h / tr))
                        0 (Z.of_nat tc * Z.of_nat (w / tc))) = tc * (w / tc)).
  { unfold slice2. rewrite Hs. rewrite <- !Nat2Z.inj_mul.
    change 0%Z with (Z.of_nat 0). rewrite !slice_bounds_nat by lia.
    rewrite !Nat.sub_0_r. split; reflexivity. }
  destruct Hr as [Hr Hc]. rewrite Hr, Hc.
  rewrite !py_range_nat by assumption. cbn [bind].
  rewrite flat_map_map_map.
  replace (flat_map _ (seq 0 (h / tr))) with (tiles_of nodata arr tr tc);
    [reflexivity|].
  unfold tiles_of, nrows, ncols. rewrite Hs. cbn [nth].
  apply flat_map_in_ext. intros rb Hrb. apply in_seq in Hrb.
  apply map_ext_in. intros cb Hcb. apply in_seq in Hcb.
  symmetry. apply slice2_band with (h := h) (w := w) (rest := rest); auto; lia.
Qed.

Lemma map_flat_map_bands (X Y Z' : Type) (f : Y -> Z') (g : X -> list Y)
    (l : list X) :
  map f (flat_map g l) = flat_map (fun x => map f (g x)) l.
Proof.
  induction l as [|x l IH]; simpl; [reflexivity|].
  rewrite map_app, IH. reflexivity.
Qed.

(** Row-major position of a band in the list of tiles. *)
Lemma nth_band_list (X : Type) (P : nat -> nat -> X) (nx ny n : nat) (d : X) :
  n < nx * ny ->
  nth n (flat_map (fun rb => map (P rb) (seq 0 nx)) (seq 0 ny)) d
  = P (n / nx) (n mod nx).
Proof.
  intros Hn.
  assert (Hnx : 0 < nx) by nia.
  assert (Hq : n / nx < ny) by (apply Nat.Div0.div_lt_upper_bound; lia).
  pose proof (Nat.mod_upper_bound n nx ltac:(lia)) as Hr.
  pose proof (Nat.div_mod_eq n nx) as E.
  replace n with (n / nx * nx + n mod nx) at 1 by lia.
  rewrite nth_flat_map_uniform with (m := nx) (x0 := 0).
  - rewrite seq_nth by assumption.
    rewrite nth_indep with (d' := P (n / nx) 0)
      by (rewrite length_map, length_seq; assumption).
    rewrite map_nth, seq_nth by assumption. reflexivity.
  - intros x _. rewrite length_map, length_seq. reflexivity.
  - rewrite length_seq. assumption.
  - assumption.
Qed.

Lemma length_band_list (X : Type) (P : nat -> nat -> X) (nx ny : nat) :
  length (flat_map (fun rb => map (P rb) (seq 0 nx)) (seq 0 ny)) = ny * nx.
Proof.
  rewrite length_flat_map_uniform with (m := nx), length_seq; [reflexivity|].
  intros x _. rewrite length_map, length_seq. reflexivity.
Qed.

(** Stacking arrays of one shape. *)
Lemma np_asarray_uniform (l : list (ndarray A)) (s : list nat) :
  l <> [] ->
  (forall t, In t l -> shape t = s /\ wf t) ->
  shape (np_asarray l) = length l :: s
  /\ wf (np_asarray l)
  /\ forall n t0, n < length l -> index0 (np_asarray l) n = nth n l t0.
Proof.
  intros Hne Hall. destruct l as [|a l']; [congruence|].
  assert (Ha : shape a = s) by (apply Hall; left; reflexivity).
  unfold np_asarray. rewrite Ha.
  remember (a :: l') as l eqn:El. clear El Hne.
  assert (Hlen : forall t, In t l -> length (data t) = size s).
  { intros t Ht. destruct (Hall t Ht) as [E W]. unfold wf in W. congruence. }
  cbn [shape].
  split; [reflexivity|]. split.
  - unfold wf. cbn [shape data size fold_right].
    apply length_flat_map_uniform. exact Hlen.
  - intros n t0 Hn. unfold index0. cbn [shape data].
    rewrite block_flat_map_uniform with (x0 := t0) by assumption.
    destruct (Hall (nth n l t0) (nth_In l t0 Hn)) as [E _].
    destruct (nth n l t0) as [s' d']. cbn in *. congruence.
Qed.

Lemma np_pad_reflect_tile (arr : ndarray A) (h w c tr tc pad rb cb : nat) :
  shape arr = [h; w; c] -> 0 < tr -> 0 < tc ->
  np_pad_reflect nodata pad (tile_at nodata arr tr tc rb cb)
  = Ok (padded_tile_at nodata arr tr tc pad rb cb).
Proof.
  intros Hs Htr Htc. unfold np_pad_reflect, tile_at, padded_tile_at, depth.
  rewrite Hs. cbn [shape skipn size fold_right].
  destruct (Nat.eqb_spec tr 0); [lia|]. destruct (Nat.eqb_spec tc 0); [lia|].
  rewrite andb_false_r. rewrite Nat.mul_1_r.
  do 2 f_equal. apply tab3_ext. intros i j k Hi Hj Hk.
  unfold px at 1. unfold ncols, depth. cbn [shape data nth skipn size fold_right].
  rewrite Nat.mul_1_r.
  rewrite nth_tab3; auto using reflect_index_lt.
Qed.

Lemma padded_tile_at_0 (arr : ndarray A) (h w c tr tc rb cb : nat) :
  shape arr = [h; w; c] ->
  padded_tile_at nodata arr tr tc 0 rb cb = tile_at nodata arr tr tc rb cb.
Proof.
  intros Hs. unfold padded_tile_at, tile_at, depth. rewrite Hs.
  cbn [skipn size fold_right]. rewrite !Nat.mul_0_r, !Nat.add_0_r, Nat.mul_1_r.
  f_equal. apply tab3_ext. intros i j k Hi Hj Hk.
  rewrite !Z.sub_0_r, !reflect_index_inside by assumption. reflexivity.
Qed.

(** Normal form of [make_tiles] on a 3-D image and a positive tile shape,
    with extents below [2^53]. *)
Lemma make_tiles_3d (arr : ndarray A) (h w c tr tc pad : nat) :
  shape arr = [h; w; c] -> 0 < tr -> 0 < tc ->
  exact64 (Z.of_nat h) -> exact64 (Z.of_nat w) ->
  exact64 (Z.of_nat tr) -> exact64 (Z.of_nat tc) ->
  make_tiles nodata arr (Z.of_nat tr, Z.of_nat tc) pad
  = Ok (np_asarray (padded_tiles_of nodata arr tr tc pad),
        Z.of_nat (w / tc), Z.of_nat (h / tr)).
Proof.
  intros Hs Htr Htc Bh Bw Btr Btc.
  rewrite make_tiles_unfold with (h := h) (w := w) (rest := [c]) by assumption.
  assert (E0 : tiles_of nodata arr tr tc = padded_tiles_of nodata arr tr tc 0).
  { unfold tiles_of, padded_tiles_of.
    apply flat_map_in_ext. intros rb _. apply map_ext. intros cb.
    symmetry. apply padded_tile_at_0 with (h := h) (w := w) (c := c). assumption. }
  destruct (Nat.eqb_spec pad 0) as [->|Hp].
  - rewrite E0. reflexivity.
  - set (g := fun t => match np_pad_reflect nodata pad t with
                     | Ok v => v
                     | Raise _ => t
                     end).
    assert (Eg : forall rb cb,
               g (tile_at nodata arr tr tc rb cb)
               = padded_tile_at nodata arr tr tc pad rb cb).
    { intros rb cb. unfold g.
      rewrite np_pad_reflect_tile with (h := h) (w := w) (c := c) by assumption.
      reflexivity. }
    assert (E : map g (tiles_of nodata arr tr tc)
                = padded_tiles_of nodata arr tr tc pad).
    { unfold tiles_of, padded_tiles_of. rewrite map_flat_map_bands.
      apply flat_map_in_ext. intros rb _. rewrite map_map.
      apply map_ext. intros cb. apply Eg. }
    rewrite mapM_ok with (g := g).
    + rewrite E. reflexivity.
    + intros t Ht. unfold tiles_of in Ht.
      apply in_flat_map in Ht. destruct Ht as [rb [_ Ht]].
      apply in_map_iff in Ht. destruct Ht as [cb [<- _]].
      rewrite Eg.
      apply np_pad_reflect_tile with (h := h) (w := w) (c := c); assumption.
Qed.

End Tiler.

(** ** Grid arithmetic *)

Lemma flat_index_lt (h w c i j k : nat) :
  i < h -> j < w -> k < c -> (i * w + j) * c + k < h * w * c.
Proof.
  intros Hi Hj Hk.
  assert (H1 : i * w + j + 1 <= h * w) by nia.
  assert (H2 : (i * w + j + 1) * c <= h * w * c) by (apply Nat.mul_le_mono_r; exact H1).
  lia.
Qed.

Lemma band_of_index (nx a b : nat) :
  b < nx -> (a * nx + b) / nx = a /\ (a * nx + b) mod nx = b.
Proof.
  intros Hb. split.
  - symmetry. apply Nat.div_unique with (r := b); lia.
  - symmetry. apply Nat.mod_unique with (q := a); lia.
Qed.

(** A pixel lies in the slot of tile [k] exactly when its bands are those of
    [k] in row-major order. *)
Lemma slot_iff (tr tc nx ny k i j : nat) :
  k < ny * nx -> i < tr * ny -> j < tc * nx ->
  ((k / nx * tr <=? i) && (i <? k / nx * tr + tr)
   && (k mod nx * tc <=? j) && (j <? k mod nx * tc + tc))
  = (i / tr * nx + j / tc =? k).
Proof.
  intros Hk Hi Hj.
  assert (Htr : 0 < tr) by nia. assert (Htc : 0 < tc) by nia.
  assert (Hnx : 0 < nx) by nia.
  pose proof (Nat.div_mod_eq i tr) as Ei.
  pose proof (Nat.mod_upper_bound i tr ltac:(lia)) as Bi.
  pose proof (Nat.div_mod_eq j tc) as Ej.
  pose proof (Nat.mod_upper_bound j tc ltac:(lia)) as Bj.
  pose proof (Nat.div_mod_eq k nx) as Ek.
  pose proof (Nat.mod_upper_bound k nx ltac:(lia)) as Bk.
  assert (Hb : j / tc < nx) by (apply Nat.Div0.div_lt_upper_bound; lia).
  set (a := i / tr) in *. set (b := j / tc) in *.
  set (q := k / nx) in *. set (r := k mod nx) in *.
  set (ri := i mod tr) in *. set (rj := j mod tc) in *.
  destruct (Nat.eqb_spec (a * nx + b) k) as [E|E].
  - assert (a = q /\ b = r) as [Ea Eb].
    { destruct (Nat.lt_trichotomy a q) as [L|[L|L]]; [nia|split; nia|nia]. }
    repeat rewrite andb_true_iff. repeat split.
    + apply Nat.leb_le. nia.
    + apply Nat.ltb_lt. nia.
    + apply Nat.leb_le. nia.
    + apply Nat.ltb_lt. nia.
  - apply not_true_is_false. intros H.
    repeat rewrite andb_true_iff in H. destruct H as [[[H1 H2] H3] H4].
    apply Nat.leb_le in H1. apply Nat.ltb_lt in H2.
    apply Nat.leb_le in H3. apply Nat.ltb_lt in H4.
    apply E.
    assert (a = q) by nia. assert (b = r) by nia. nia.
Qed.

(** ** The loop of [stitch_tiles] *)

Lemma slice_bounds_crop (n crop : nat) :
  0 < crop ->
  slice_bounds n (Z.of_nat crop) (- Z.of_nat crop) = (Nat.min crop n, n - 2 * crop).
Proof.
  intros Hc. unfold slice_bounds, slice_index.
  destruct (Z.ltb_spec (Z.of_nat crop) 0); [lia|].
  destruct (Z.ltb_spec (- Z.of_nat crop) 0); [|lia].
  f_equal; lia.
Qed.

Lemma foldM_ok_in (S X : Type) (body : S -> X -> result S) (xs : list X)
    (s s' : S) (x : X) :
  foldM body xs s = Ok s' -> In x xs -> exists s1 s2, body s1 x = Ok s2.
Proof.
  revert s. induction xs as [|y xs IH]; simpl; intros s H Hin; [contradiction|].
  destruct (body s y) as [s1|e] eqn:E; cbn in H; [|discriminate].
  destruct Hin as [->|Hin]; [eauto|]. eapply IH; eauto.
Qed.

Lemma foldM_raise_kind (S X : Type) (body : S -> X -> result S) (e : exn)
    (xs : list X) (s : S) :
  (forall s x, returns (body s x) \/ body s x = Raise e) ->
  returns (foldM body xs s) \/ foldM body xs s = Raise e.
Proof.
  intros Hb. revert s. induction xs as [|y xs IH]; simpl; intros s.
  - left. eexists. reflexivity.
  - destruct (Hb s y) as [[s1 E]|E]; rewrite E; cbn; auto.
Qed.

Section Stitcher.

Variable A : Type.
Variable nodata : A.
Variable F : Type.
Variable fzero : F.
Variable to_float64 : A -> F.

Lemma shape_index0 (T : ndarray A) (n : nat) (s : list nat) (ndx : nat) :
  shape T = n :: s -> shape (index0 T ndx) = s.
Proof. intros E. unfold index0. rewrite E. reflexivity. Qed.

Lemma shape_input_tile (T : ndarray A) (n th tw c crop ndx : nat) :
  shape T = [n; th; tw; c] ->
  shape (input_tile nodata T crop ndx) = [th - 2 * crop; tw - 2 * crop; c].
Proof.
  intros E. unfold input_tile.
  destruct (Nat.eqb_spec crop 0) as [->|Hc].
  - rewrite (shape_index0 _ _ E). f_equal; [lia|f_equal; lia].
  - unfold slice2. rewrite (shape_index0 _ _ E).
    rewrite !slice_bounds_crop by lia. reflexivity.
Qed.

Lemma broadcast_shape3_3d (a b c : nat) :
  broadcast_shape3 [a; b; c] = Some (a, b, c).
Proof. destruct a as [|[|a]]; reflexivity. Qed.

Lemma px_reshape (X : Type) (d : X) (t : ndarray X) (s : list nat)
    (i j k : nat) :
  shape t = s -> px d (NdArray s (data t)) i j k = px d t i j k.
Proof. intros <-. reflexivity. Qed.

Lemma px_input_tile (T : ndarray A) (n th tw c crop ndx i j k : nat) :
  shape T = [n; th; tw; c] ->
  i < th - 2 * crop -> j < tw - 2 * crop -> k < c ->
  px nodata (input_tile nodata T crop ndx) i j k
  = px nodata (index0 T ndx) (crop + i) (crop + j) k.
Proof.
  intros E Hi Hj Hk. unfold input_tile.
  destruct (Nat.eqb_spec crop 0) as [->|Hc]; [reflexivity|].
  unfold slice2. rewrite (shape_index0 _ _ E).
  rewrite !slice_bounds_crop by lia.
  unfold px at 1. unfold ncols, depth. cbn [shape data nth skipn size fold_right].
  rewrite Nat.mul_1_r, nth_tab3 by assumption.
  rewrite !Nat.min_l by lia. reflexivity.
Qed.

Section Loop.

Variable T : ndarray A.
Variables n th tw c : nat.
Hypothesis shape_T : shape T = [n; th; tw; c].
Variables nx ny tc tr crop : nat.

Local Abbreviation placed :=
  (stitched nodata fzero to_float64 T th tw c nx ny tc tr crop).

Lemma placed_zeros : placed 0 (np_zeros fzero [tr * ny; tc * nx; c]).
Proof.
  unfold stitched, np_zeros. cbn [shape data size fold_right].
  split; [reflexivity|]. split.
  - rewrite repeat_length. lia.
  - intros i j ch _ _ _. unfold px. apply nth_repeat.
Qed.

Lemma stitch_step_ok (k : nat) (s : ndarray F) :
  placed k s -> k < ny * nx ->
  broadcasts (th - 2 * crop) tr = true ->
  broadcasts (tw - 2 * crop) tc = true ->
  exists s', stitch_step nodata fzero to_float64 T nx ny tc tr crop s k = Ok s'
             /\ placed (S k) s'.
Proof.
  intros (Hs & Hl & Hp) Hk Br Bc.
  assert (Hnx : 0 < nx) by nia.
  assert (Hq : k / nx < ny) by (apply Nat.Div0.div_lt_upper_bound; lia).
  pose proof (Nat.mod_upper_bound k nx ltac:(lia)) as Hr.
  unfold stitch_step, np_unravel_index.
  destruct (Nat.ltb_spec k (ny * nx)); [|lia]. cbn [bind].
  unfold np_setitem2.
  rewrite Hs, shape_input_tile with (1 := shape_T), broadcast_shape3_3d.
  rewrite !slice_bounds_nat by nia.
  replace (k / nx * tr + tr - k / nx * tr) with tr by lia.
  replace (k mod nx * tc + tc - k mod nx * tc) with tc by lia.
  rewrite Br, Bc. unfold broadcasts at 1. rewrite Nat.eqb_refl. cbn [andb orb].
  eexists. split; [reflexivity|].
  unfold stitched. cbn [shape data]. split; [reflexivity|]. split.
  - apply length_tab3.
  - intros i j ch Hi Hj Hch.
    unfold px at 1. unfold ncols, depth. cbn [shape data nth skipn size fold_right].
    rewrite Nat.mul_1_r, nth_tab3 by assumption.
    rewrite (slot_iff tr tc nx ny) by assumption.
    destruct (Nat.eqb_spec (i / tr * nx + j / tc) k) as [E|E].
    + destruct (Nat.ltb_spec (i / tr * nx + j / tc) (S k)); [|lia].
      rewrite px_reshape by (apply shape_input_tile with (1 := shape_T)).
      rewrite E. f_equal. unfold src_index.
      assert (Hb : j / tc < nx) by (apply Nat.Div0.div_lt_upper_bound; lia).
      pose proof (Nat.div_mod_eq i tr) as Ei.
      pose proof (Nat.div_mod_eq j tc) as Ej.
      pose proof (Nat.div_mod_eq k nx) as Ek.
      assert (Ea : i / tr = k / nx /\ j / tc = k mod nx).
      { destruct (Nat.lt_trichotomy (i / tr) (k / nx)) as [L|[L|L]];
          [nia|split; nia|nia]. }
      destruct Ea as [Ea Eb].
      replace (i - k / nx * tr) with (i mod tr) by nia.
      replace (j - k mod nx * tc) with (j mod tc) by nia.
      destruct (Nat.eqb_spec c 1); [f_equal; lia|reflexivity].
    + rewrite Hp by assumption.
      destruct (Nat.ltb_spec (i / tr * nx + j / tc) k);
        destruct (Nat.ltb_spec (i / tr * nx + j / tc) (S k));
        try reflexivity; lia.
Qed.

Lemma stitch_loop_ok (len k : nat) (s : ndarray F) :
  placed k s -> k + len <= ny * nx ->
  broadcasts (th - 2 * crop) tr = true ->
  broadcasts (tw - 2 * crop) tc = true ->
  exists s',
    foldM (stitch_step nodata fzero to_float64 T nx ny tc tr crop) (seq k len) s
    = Ok s' /\ placed (k + len) s'.
Proof.
  revert k s. induction len as [|len IH]; intros k s Hp Hk Br Bc.
  - exists s. rewrite Nat.add_0_r. split; [reflexivity|assumption].
  - cbn [seq foldM].
    destruct (stitch_step_ok Hp) as (s1 & E & Hp1); [lia|assumption..|].
    rewrite E. cbn [bind].
    destruct (IH (S k) s1 Hp1) as (s' & E' & Hp'); [lia|assumption..|].
    exists s'. split; [assumption|].
    replace (k + S len) with (S k + len) by lia. assumption.
Qed.

Lemma stitch_step_kind (s : ndarray F) (k : nat) :
  returns (stitch_step nodata fzero to_float64 T nx ny tc tr crop s k)
  \/ stitch_step nodata fzero to_float64 T nx ny tc tr crop s k = Raise ValueError.
Proof.
  unfold stitch_step, np_unravel_index.
  destruct (k <? ny * nx); cbn [bind]; [|right; reflexivity].
  unfold np_setitem2.
  destruct (shape s) as [|? [|? [|? [|? ?]]]]; try (right; reflexivity).
  destruct (broadcast_shape3 (shape (input_tile nodata T crop k)))
    as [[[sh sw] sc]|]; try (right; reflexivity).
  destruct (slice_bounds _ _ _) as [i0 h'].
  destruct (slice_bounds _ _ _) as [j0 w'].
  destruct (_ && _); [left; eexists; reflexivity|right; reflexivity].
Qed.

Lemma stitch_step_beyond (s : ndarray F) (k : nat) :
  ny * nx <= k ->
  stitch_step nodata fzero to_float64 T nx ny tc tr crop s k = Raise ValueError.
Proof.
  intros Hk. unfold stitch_step, np_unravel_index.
  destruct (Nat.ltb_spec k (ny * nx)); [lia|reflexivity].
Qed.

Lemma stitch_step_mismatch (k : nat) (s : ndarray F) :
  shape s = [tr * ny; tc * nx; c] ->
  broadcasts (th - 2 * crop) tr = false \/ broadcasts (tw - 2 * crop) tc = false ->
  stitch_step nodata fzero to_float64 T nx ny tc tr crop s k = Raise ValueError.
Proof.
  intros Hs Hb. unfold stitch_step, np_unravel_index.
  destruct (Nat.ltb_spec k (ny * nx)) as [Hk|Hk]; [|reflexivity]. cbn [bind].
  assert (Hnx : 0 < nx) by nia.
  assert (Hq : k / nx < ny) by (apply Nat.Div0.div_lt_upper_bound; lia).
  pose proof (Nat.mod_upper_bound k nx ltac:(lia)) as Hr.
  unfold np_setitem2.
  rewrite Hs, shape_input_tile with (1 := shape_T), broadcast_shape3_3d.
  rewrite !slice_bounds_nat by nia.
  replace (k / nx * tr + tr - k / nx * tr) with tr by lia.
  replace (k mod nx * tc + tc - k mod nx * tc) with tc by lia.
  destruct Hb as [-> | ->]; [reflexivity|].
  rewrite andb_false_r. reflexivity.
Qed.

End Loop.

End Stitcher.

(** ** The tile grid and the stitched image *)

Section Engine.

Variable A : Type.
Variable nodata : A.
Variable F : Type.
Variable fzero : F.
Variable to_float64 : A -> F.

Lemma px_padded_tile_at (arr : ndarray A) (h w c tr tc pad rb cb i j k : nat) :
  shape arr = [h; w; c] ->
  i < tr + 2 * pad -> j < tc + 2 * pad -> k < c ->
  px nodata (padded_tile_at nodata arr tr tc pad rb cb) i j k
  = px nodata arr
       (rb * tr + reflect_index tr (Z.of_nat i - Z.of_nat pad))
       (cb * tc + reflect_index tc (Z.of_nat j - Z.of_nat pad)) k.
Proof.
  intros Hs Hi Hj Hk. unfold padded_tile_at, depth. rewrite Hs.
  cbn [skipn size fold_right]. rewrite Nat.mul_1_r.
  unfold px at 1. unfold ncols, depth. cbn [shape data nth skipn size fold_right].
  rewrite Nat.mul_1_r, nth_tab3 by assumption. reflexivity.
Qed.

Lemma tile_grid_empty (arr : ndarray A) (h w c tr tc pad : nat) :
  shape arr = [h; w; c] -> w / tc * (h / tr) = 0 ->
  np_asarray (padded_tiles_of nodata arr tr tc pad) = NdArray [0] [].
Proof.
  intros Hs H0.
  assert (L : length (padded_tiles_of nodata arr tr tc pad) = 0).
  { unfold padded_tiles_of. rewrite length_band_list.
    unfold nrows, ncols. rewrite Hs. cbn [nth]. lia. }
  destruct (padded_tiles_of nodata arr tr tc pad); [reflexivity|discriminate].
Qed.

Lemma tile_grid (arr : ndarray A) (h w c tr tc pad : nat) :
  shape arr = [h; w; c] -> 0 < w / tc * (h / tr) ->
  shape (np_asarray (padded_tiles_of nodata arr tr tc pad))
  = [w / tc * (h / tr); tr + 2 * pad; tc + 2 * pad; c]
  /\ wf (np_asarray (padded_tiles_of nodata arr tr tc pad))
  /\ forall n, n < w / tc * (h / tr) ->
       index0 (np_asarray (padded_tiles_of nodata arr tr tc pad)) n
       = padded_tile_at nodata arr tr tc pad (n / (w / tc)) (n mod (w / tc)).
Proof.
  intros Hs Hpos.
  assert (L : length (padded_tiles_of nodata arr tr tc pad) = w / tc * (h / tr)).
  { unfold padded_tiles_of. rewrite length_band_list.
    unfold nrows, ncols. rewrite Hs. cbn [nth]. lia. }
  destruct (@np_asarray_uniform A (padded_tiles_of nodata arr tr tc pad)
              [tr + 2 * pad; tc + 2 * pad; c]) as (H1 & H2 & H3).
  - intros E. rewrite E in L. cbn in L. lia.
  - intros t Ht. unfold padded_tiles_of in Ht.
    apply in_flat_map in Ht. destruct Ht as [rb [_ Ht]].
    apply in_map_iff in Ht. destruct Ht as [cb [<- _]].
    unfold wf, padded_tile_at, depth. rewrite Hs.
    cbn [shape data skipn size fold_right]. rewrite length_tab3.
    split; [f_equal; f_equal; f_equal; lia|lia].
  - rewrite L in H1. split; [assumption|]. split; [assumption|].
    intros n Hn. rewrite (H3 n (NdArray [] [])) by lia.
    unfold padded_tiles_of, nrows, ncols. rewrite Hs. cbn [nth].
    apply nth_band_list. assumption.
Qed.

(** [stitch_tiles] returns when there are no more tiles than slots and the
    post-crop extents of the tiles broadcast to the tile extents. *)
Lemma stitch_tiles_ok (T : ndarray A) (n th tw c nx ny tc tr crop : nat) :
  shape T = [n; th; tw; c] ->
  n <= nx * ny ->
  n = 0 \/ (broadcasts (th - 2 * crop) tr = true
            /\ broadcasts (tw - 2 * crop) tc = true) ->
  exists out,
    stitch_tiles nodata fzero to_float64 T nx ny tc tr crop = Ok out
    /\ stitched nodata fzero to_float64 T th tw c nx ny tc tr crop n out.
Proof.
  intros Hs Hn Hb. unfold stitch_tiles, shape_at. rewrite Hs. cbn [nth_error bind].
  destruct Hb as [->|[Br Bc]].
  - eexists. split; [reflexivity|]. apply placed_zeros.
  - apply (stitch_loop_ok Hs n (placed_zeros nodata fzero to_float64 T th tw c nx ny tc tr crop));
      [lia|assumption..].
Qed.

(** Every failure of [stitch_tiles] on a 4-D tile array is a [ValueError]. *)
Lemma stitch_tiles_kind (T : ndarray A) (n th tw c nx ny tc tr crop : nat) :
  shape T = [n; th; tw; c] ->
  returns (stitch_tiles nodata fzero to_float64 T nx ny tc tr crop)
  \/ stitch_tiles nodata fzero to_float64 T nx ny tc tr crop = Raise ValueError.
Proof.
  intros Hs. unfold stitch_tiles, shape_at. rewrite Hs. cbn [nth_error bind].
  apply foldM_raise_kind. intros s k. apply stitch_step_kind.
Qed.

Lemma stitch_tiles_raises (T : ndarray A) (n th tw c nx ny tc tr crop : nat) :
  shape T = [n; th; tw; c] ->
  nx * ny < n
  \/ (0 < n /\ (broadcasts (th - 2 * crop) tr = false
                \/ broadcasts (tw - 2 * crop) tc = false)) ->
  stitch_tiles nodata fzero to_float64 T nx ny tc tr crop = Raise ValueError.
Proof.
  intros Hs Hbad.
  destruct (@stitch_tiles_kind T n th tw c nx ny tc tr crop Hs) as [[out E]|E];
    [|exact E].
  exfalso. unfold stitch_tiles, shape_at in E. rewrite Hs in E.
  cbn [nth_error bind] in E.
  destruct Hbad as [Hn|[Hn Hb]].
  - apply foldM_ok_in with (x := nx * ny) in E; [|apply in_seq; lia].
    destruct E as (s1 & s2 & E1).
    rewrite stitch_step_beyond in E1 by lia. discriminate.
  - destruct n as [|n]; [lia|]. cbn [seq foldM] in E.
    rewrite stitch_step_mismatch with (n := S n) (th := th) (tw := tw) (c := c)
      in E by (reflexivity || assumption).
    discriminate.
Qed.

End Engine.

(** * The claims of the specification *)

Section Claims.

Variable A : Type.
Variable nodata : A.
Variable F : Type.
Variable fzero : F.
Variable to_float64 : A -> F.

(** Sample [(i, j, k)] of tile [n] of the grid, read in the source image. *)
Lemma tile_sample (arr : ndarray A) (h w c tr tc pad n i j k : nat) :
  shape arr = [h; w; c] ->
  n < w / tc * (h / tr) -> i < tr + 2 * pad -> j < tc + 2 * pad -> k < c ->
  px nodata (index0 (np_asarray (padded_tiles_of nodata arr tr tc pad)) n) i j k
  = px nodata arr
       (n / (w / tc) * tr + reflect_index tr (Z.of_nat i - Z.of_nat pad))
       (n mod (w / tc) * tc + reflect_index tc (Z.of_nat j - Z.of_nat pad)) k.
Proof.
  intros Hs Hn Hi Hj Hk.
  destruct (@tile_grid A nodata arr h w c tr tc pad Hs) as (_ & _ & H3); [lia|].
  rewrite H3 by assumption.
  apply px_padded_tile_at with (h := h) (w := w) (c := c); assumption.
Qed.

(** C3, amended. For a 3-D image of shape (h, w, c) and a strictly positive
    tile shape, all extents below 2^53, [make_tiles] returns the grid counts
    floor(w / tc) and floor(h / tr) and a well-formed tile array that holds
    exactly grid_cols * grid_rows tiles, each of shape
    (tr + 2 pad, tc + 2 pad, c). Every sample of every tile is read in the
    source at a row before h - h mod tr and a column before w - w mod tc: the
    remainder rows at the bottom and columns at the right appear in no
    tile. *)
Theorem make_tiles_grid (arr : ndarray A) (h w c tr tc pad : nat) :
  shape arr = [h; w; c] -> 0 < tr -> 0 < tc ->
  exact64 (Z.of_nat h) -> exact64 (Z.of_nat w) ->
  exact64 (Z.of_nat tr) -> exact64 (Z.of_nat tc) ->
  exists tiles,
    make_tiles nodata arr (Z.of_nat tr, Z.of_nat tc) pad
    = Ok (tiles, Z.of_nat (w / tc), Z.of_nat (h / tr))
    /\ wf tiles
    /\ nth 0 (shape tiles) 0 = w / tc * (h / tr)
    /\ (forall n, n < w / tc * (h / tr) ->
          shape (index0 tiles n) = [tr + 2 * pad; tc + 2 * pad; c])
    /\ (forall n i j k,
          n < w / tc * (h / tr) -> i < tr + 2 * pad -> j < tc + 2 * pad -> k < c ->
          let si := n / (w / tc) * tr + reflect_index tr (Z.of_nat i - Z.of_nat pad) in
          let sj := n mod (w / tc) * tc + reflect_index tc (Z.of_nat j - Z.of_nat pad) in
          px nodata (index0 tiles n) i j k = px nodata arr si sj k
          /\ si < h - h mod tr /\ sj < w - w mod tc).
Proof.
  intros Hs Htr Htc Bh Bw Btr Btc.
  exists (np_asarray (padded_tiles_of nodata arr tr tc pad)).
  split; [apply make_tiles_3d with (c := c); assumption|].
  destruct (Nat.eq_dec (w / tc * (h / tr)) 0) as [E0|Hpos].
  - rewrite (@tile_grid_empty A nodata arr h w c tr tc pad Hs E0), E0.
    split; [reflexivity|]. split; [reflexivity|].
    split; intros; lia.
  - destruct (@tile_grid A nodata arr h w c tr tc pad Hs) as (H1 & H2 & H3); [lia|].
    split; [assumption|]. split; [rewrite H1; reflexivity|]. split.
    + intros n Hn. rewrite H3 by assumption. unfold padded_tile_at, depth.
      rewrite Hs. cbn [shape skipn size fold_right]. rewrite Nat.mul_1_r. reflexivity.
    + intros n i j k Hn Hi Hj Hk si sj. split.
      * apply tile_sample with (h := h) (c := c); assumption.
      * assert (Hnx : 0 < w / tc) by nia.
        assert (Hq : n / (w / tc) < h / tr)
          by (apply Nat.Div0.div_lt_upper_bound; lia).
        pose proof (Nat.mod_upper_bound n (w / tc) ltac:(lia)) as Hr.
        pose proof (reflect_index_lt (Z.of_nat i - Z.of_nat pad) Htr) as Ri.
        pose proof (reflect_index_lt (Z.of_nat j - Z.of_nat pad) Htc) as Rj.
        pose proof (Nat.div_mod_eq h tr). pose proof (Nat.div_mod_eq w tc).
        subst si sj. split; nia.
Qed.

(** Placement of a tile whose post-crop shape is the tile shape. *)
Lemma stitched_px (T : ndarray A) (n c nx ny tc tr crop : nat)
    (out : ndarray F) (ndx i j k : nat) :
  shape T = [n; tr + 2 * crop; tc + 2 * crop; c] ->
  stitched nodata fzero to_float64 T (tr + 2 * crop) (tc + 2 * crop) c
           nx ny tc tr crop n out ->
  ndx < n -> ndx < nx * ny -> i < tr -> j < tc -> k < c ->
  px fzero out (ndx / nx * tr + i) (ndx mod nx * tc + j) k
  = to_float64 (px nodata (index0 T ndx) (crop + i) (crop + j) k).
Proof.
  intros Hs (_ & _ & Hp) Hn Hg Hi Hj Hk.
  assert (Hnx : 0 < nx) by nia.
  assert (Hq : ndx / nx < ny) by (apply Nat.Div0.div_lt_upper_bound; lia).
  pose proof (Nat.mod_upper_bound ndx nx ltac:(lia)) as Hr.
  pose proof (Nat.div_mod_eq ndx nx) as E.
  assert (Ei : (ndx / nx * tr + i) / tr = ndx / nx
               /\ (ndx / nx * tr + i) mod tr = i) by (apply band_of_index; lia).
  assert (Ej : (ndx mod nx * tc + j) / tc = ndx mod nx
               /\ (ndx mod nx * tc + j) mod tc = j) by (apply band_of_index; lia).
  destruct Ei as [Ei Mi]. destruct Ej as [Ej Mj].
  rewrite Hp by nia. rewrite Ei, Ej.
  replace (ndx / nx * nx + ndx mod nx) with ndx by lia.
  destruct (Nat.ltb_spec ndx n); [|lia].
  f_equal. unfold src_index. rewrite Mi, Mj.
  replace (tr + 2 * crop - 2 * crop) with tr by lia.
  replace (tc + 2 * crop - 2 * crop) with tc by lia.
  replace (if tr =? 1 then 0 else i) with i by (destruct (Nat.eqb_spec tr 1); lia).
  replace (if tc =? 1 then 0 else j) with j by (destruct (Nat.eqb_spec tc 1); lia).
  apply px_input_tile with (n := n) (th := tr + 2 * crop) (tw := tc + 2 * crop) (c := c);
    [assumption|lia|lia|assumption].
Qed.

(** C2. [make_tiles] lists the tiles in row-major order of their bands: tile
    [ndx] is the block of the source that starts at row (ndx / grid_cols) * tr
    and column (ndx mod grid_cols) * tc. [stitch_tiles] inverts this order:
    on a grid of grid_cols by grid_rows tiles, tile [ndx] is stored at offset
    ((ndx / grid_cols) * tr, (ndx mod grid_cols) * tc) of the output. The
    extents of the image and of the tiles are below 2^53, where the grid
    counts of [make_tiles] are the integer quotients. *)
Theorem row_major_order (arr : ndarray A) (h w c tr tc : nat)
    (T : ndarray A) (nx ny c' crop : nat) :
  shape arr = [h; w; c] -> 0 < tr -> 0 < tc ->
  exact64 (Z.of_nat h) -> exact64 (Z.of_nat w) ->
  exact64 (Z.of_nat tr) -> exact64 (Z.of_nat tc) ->
  shape T = [nx * ny; tr + 2 * crop; tc + 2 * crop; c'] ->
  (exists tiles,
     make_tiles nodata arr (Z.of_nat tr, Z.of_nat tc) 0
     = Ok (tiles, Z.of_nat (w / tc), Z.of_nat (h / tr))
     /\ forall ndx i j k,
          ndx < w / tc * (h / tr) -> i < tr -> j < tc -> k < c ->
          px nodata (index0 tiles ndx) i j k
          = px nodata arr (ndx / (w / tc) * tr + i) (ndx mod (w / tc) * tc + j) k)
  /\ (exists out,
        stitch_tiles nodata fzero to_float64 T nx ny tc tr crop = Ok out
        /\ forall ndx i j k,
             ndx < nx * ny -> i < tr -> j < tc -> k < c' ->
             px fzero out (ndx / nx * tr + i) (ndx mod nx * tc + j) k
             = to_float64 (px nodata (index0 T ndx) (crop + i) (crop + j) k)).
Proof.
  intros Hs Htr Htc Bh Bw Btr Btc HT. split.
  - exists (np_asarray (padded_tiles_of nodata arr tr tc 0)).
    split; [apply make_tiles_3d with (c := c); assumption|].
    intros ndx i j k Hn Hi Hj Hk.
    rewrite tile_sample with (h := h) (w := w) (c := c) by (assumption || lia).
    rewrite !Z.sub_0_r, !reflect_index_inside by assumption. reflexivity.
  - destruct (@stitch_tiles_ok A nodata F fzero to_float64 T (nx * ny)
                (tr + 2 * crop) (tc + 2 * crop) c' nx ny tc tr crop HT)
      as (out & E & Hp).
    + lia.
    + right. unfold broadcasts.
      replace (tr + 2 * crop - 2 * crop) with tr by lia.
      replace (tc + 2 * crop - 2 * crop) with tc by lia.
      rewrite !Nat.eqb_refl. split; reflexivity.
    + exists out. split; [assumption|].
      intros ndx i j k Hn Hi Hj Hk.
      apply stitched_px with (n := nx * ny) (c := c') (ny := ny); assumption.
Qed.

(** Tiling without padding and stitching the tiles back stores every sample
    of the image at its own place, through the cast. *)
Lemma roundtrip_cast (arr : ndarray A) (r c ch tr tc : nat) :
  wf arr -> shape arr = [r * tr; c * tc; ch] ->
  1 <= r -> 1 <= c -> 0 < tr -> 0 < tc ->
  exact64 (Z.of_nat (r * tr)) -> exact64 (Z.of_nat (c * tc)) ->
  exists tiles nx ny,
    make_tiles nodata arr (Z.of_nat tr, Z.of_nat tc) 0 = Ok (tiles, nx, ny)
    /\ stitch_tiles nodata fzero to_float64 tiles
                    (Z.to_nat nx) (Z.to_nat ny) tc tr 0
       = Ok (NdArray (shape arr) (map to_float64 (data arr))).
Proof.
  intros Hwf Hs Hr Hc Htr Htc Bh Bw.
  exists (np_asarray (padded_tiles_of nodata arr tr tc 0)),
         (Z.of_nat (c * tc / tc)), (Z.of_nat (r * tr / tr)).
  split.
  { apply make_tiles_3d with (c := ch); try assumption.
    - apply exact64_le with (b := r * tr); [nia|assumption].
    - apply exact64_le with (b := c * tc); [nia|assumption]. }
  rewrite !Nat2Z.id.
  destruct (@tile_grid A nodata arr (r * tr) (c * tc) ch tr tc 0 Hs)
    as (HT & _ & _).
  { rewrite !Nat.div_mul by lia. nia. }
  pose proof (@tile_sample arr (r * tr) (c * tc) ch tr tc 0) as Hsample.
  rewrite !Nat.div_mul in * by lia.
  set (T := np_asarray (padded_tiles_of nodata arr tr tc 0)) in *.
  destruct (@stitch_tiles_ok A nodata F fzero to_float64 T (c * r)
              (tr + 2 * 0) (tc + 2 * 0) ch c r tc tr 0 HT)
    as (out & E & Hp).
  { lia. }
  { right. unfold broadcasts.
    replace (tr + 2 * 0 - 2 * 0) with tr by lia.
    replace (tc + 2 * 0 - 2 * 0) with tc by lia.
    rewrite !Nat.eqb_refl. split; reflexivity. }
  rewrite E. f_equal.
  pose proof Hp as (Hso & Hlo & _).
  destruct out as [so dout]. cbn [shape data] in Hso, Hlo.
  rewrite Hs, Hso. f_equal; [f_equal; [lia|f_equal; lia]|].
  unfold wf in Hwf. rewrite Hs in Hwf. cbn [size fold_right] in Hwf.
  apply list_eq_3d with (h := tr * r) (w := tc * c) (c := ch) (d := fzero).
  - assumption.
  - rewrite length_map, Hwf. lia.
  - intros i j k Hi Hj Hk.
    assert (Hb : j / tc < c) by (apply Nat.Div0.div_lt_upper_bound; lia).
    assert (Ha : i / tr < r) by (apply Nat.Div0.div_lt_upper_bound; lia).
    pose proof (Nat.div_mod_eq i tr) as Ei.
    pose proof (Nat.div_mod_eq j tc) as Ej.
    pose proof (Nat.mod_upper_bound i tr ltac:(lia)) as Mi.
    pose proof (Nat.mod_upper_bound j tc ltac:(lia)) as Mj.
    destruct (@band_of_index c (i / tr) (j / tc) Hb) as [Q R].
    assert (Hn : i / tr * c + j / tc < c * r).
    { apply Nat.lt_le_trans with (i / tr * c + c); [lia|].
      replace (i / tr * c + c) with (c * S (i / tr)) by lia.
      apply Nat.mul_le_mono_l. lia. }
    pose proof (@stitched_px T (c * r) ch c r tc tr 0 (NdArray so dout)
                  (i / tr * c + j / tc) (i mod tr) (j mod tc) k HT Hp) as Hpx.
    rewrite Q, R in Hpx.
    replace (i / tr * tr + i mod tr) with i in Hpx by lia.
    replace (j / tc * tc + j mod tc) with j in Hpx by lia.
    unfold px at 1 in Hpx. unfold ncols, depth in Hpx.
    cbn [shape data] in Hpx. rewrite Hso in Hpx.
    cbn [nth skipn size fold_right] in Hpx. rewrite Nat.mul_1_r in Hpx.
    rewrite Hpx by (assumption || lia).
    rewrite Hsample by (assumption || lia). rewrite Q, R.
    rewrite !Z.sub_0_r, !reflect_index_inside by assumption.
    replace (i / tr * tr + (0 + i mod tr)) with i by lia.
    replace (j / tc * tc + (0 + j mod tc)) with j by lia.
    unfold px, ncols, depth. rewrite Hs. cbn [nth skipn size fold_right].
    rewrite Nat.mul_1_r.
    rewrite nth_indep with (d' := to_float64 nodata).
    2:{ rewrite length_map, Hwf.
        pose proof (@flat_index_lt (tr * r) (tc * c) ch i j k Hi Hj Hk). lia. }
    rewrite map_nth. f_equal. f_equal. lia.
Qed.








Lemma band_index_lt (nx ny a b : nat) : a < ny -> b < nx -> a * nx + b < nx * ny.
Proof.
  intros Ha Hb. apply Nat.lt_le_trans with (a * nx + nx); [lia|].
  replace (a * nx + nx) with (nx * S a) by lia.
  apply Nat.mul_le_mono_l. lia.
Qed.

(** On a valid input (as many tiles as slots, each of post-crop shape
    (tr, tc, c)) [stitch_tiles] returns a well-formed array of shape
    (tr * grid_rows, tc * grid_cols, c) in which every sample is the cast of
    the sample of the tile of its band, [crop] pixels inside that tile. *)
Lemma stitch_tiles_cast (T : ndarray A) (nx ny c tc tr crop : nat) :
  shape T = [nx * ny; tr + 2 * crop; tc + 2 * crop; c] ->
  exists out : ndarray F,
    stitch_tiles nodata fzero to_float64 T nx ny tc tr crop = Ok out
    /\ shape out = [tr * ny; tc * nx; c]
    /\ wf out
    /\ forall i j k, i < tr * ny -> j < tc * nx -> k < c ->
         px fzero out i j k
         = to_float64 (px nodata (index0 T (i / tr * nx + j / tc))
                          (crop + i mod tr) (crop + j mod tc) k).
Proof.
  intros HT.
  destruct (@stitch_tiles_ok A nodata F fzero to_float64 T (nx * ny)
              (tr + 2 * crop) (tc + 2 * crop) c nx ny tc tr crop HT)
    as (out & E & Hp).
  { lia. }
  { right. unfold broadcasts.
    replace (tr + 2 * crop - 2 * crop) with tr by lia.
    replace (tc + 2 * crop - 2 * crop) with tc by lia.
    rewrite !Nat.eqb_refl. split; reflexivity. }
  exists out. split; [assumption|].
  pose proof Hp as (Hso & Hlo & _).
  split; [assumption|]. split.
  { unfold wf. rewrite Hso, Hlo. cbn [size fold_right]. lia. }
  intros i j k Hi Hj Hk.
  assert (Htr : 0 < tr) by nia. assert (Htc : 0 < tc) by nia.
  assert (Ha : i / tr < ny) by (apply Nat.Div0.div_lt_upper_bound; lia).
  assert (Hb : j / tc < nx) by (apply Nat.Div0.div_lt_upper_bound; lia).
  pose proof (band_index_lt Ha Hb) as Hn.
  destruct (@band_of_index nx (i / tr) (j / tc) Hb) as [Q R].
  pose proof (Nat.div_mod_eq i tr) as Ei.
  pose proof (Nat.div_mod_eq j tc) as Ej.
  pose proof (Nat.mod_upper_bound i tr ltac:(lia)) as Mi.
  pose proof (Nat.mod_upper_bound j tc ltac:(lia)) as Mj.
  pose proof (@stitched_px T (nx * ny) c nx ny tc tr crop out
                (i / tr * nx + j / tc) (i mod tr) (j mod tc) k HT Hp
                Hn Hn Mi Mj Hk) as Hpx.
  rewrite Q, R in Hpx.
  replace (i / tr * tr + i mod tr) with i in Hpx by lia.
  replace (j / tc * tc + j mod tc) with j in Hpx by lia.
  exact Hpx.
Qed.

(** C5, amended. On a 4-D tile array of shape (n, th, tw, c), [stitch_tiles]
    raises a ValueError when there are more tiles than slots, or when there
    is a tile and one of its post-crop extents is neither the tile extent nor
    1; it returns in every other case, so with fewer tiles than slots (the
    remaining slots stay zero) and with a post-crop extent of 1 (broadcast
    over the slot). In particular it returns whenever the count is
    grid_cols * grid_rows and the post-crop shape is (tr, tc, c), whatever
    padding the tiles were made with. *)
Theorem stitch_tiles_outcome (T : ndarray A) (n th tw c nx ny tc tr crop : nat) :
  shape T = [n; th; tw; c] ->
  (nx * ny < n
   \/ (0 < n /\ (broadcasts (th - 2 * crop) tr = false
                 \/ broadcasts (tw - 2 * crop) tc = false)) ->
   stitch_tiles nodata fzero to_float64 T nx ny tc tr crop = Raise ValueError)
  /\ (n <= nx * ny ->
      n = 0 \/ (broadcasts (th - 2 * crop) tr = true
                /\ broadcasts (tw - 2 * crop) tc = true) ->
      returns (stitch_tiles nodata fzero to_float64 T nx ny tc tr crop))
  /\ (n = nx * ny -> th - 2 * crop = tr -> tw - 2 * crop = tc ->
      returns (stitch_tiles nodata fzero to_float64 T nx ny tc tr crop)).
Proof.
  intros HT. split; [|split].
  - intros Hbad. apply stitch_tiles_raises with (n := n) (th := th) (tw := tw) (c := c);
      assumption.
  - intros Hn Hb.
    destruct (@stitch_tiles_ok A nodata F fzero to_float64 T n th tw c
                nx ny tc tr crop HT Hn Hb) as (out & E & _).
    exists out. exact E.
  - intros Hn Hr Hc.
    destruct (@stitch_tiles_ok A nodata F fzero to_float64 T n th tw c
                nx ny tc tr crop HT) as (out & E & _).
    + lia.
    + right. unfold broadcasts. rewrite Hr, Hc, !Nat.eqb_refl. split; reflexivity.
    + exists out. exact E.
Qed.


Lemma py_range_ok (stop step : Z) :
  step <> 0%Z -> exists l, py_range stop step = Ok l.
Proof.
  intros Hs. unfold py_range.
  destruct (Z.eqb_spec step 0); [contradiction|].
  destruct (0 <? step)%Z; eexists; reflexivity.
Qed.

Lemma py_range_nil (stop step : Z) :
  (step < 0 /\ 0 <= stop)%Z \/ (0 < step /\ stop <= 0)%Z ->
  py_range stop step = Ok [].
Proof.
  intros H. unfold py_range.
  destruct (Z.eqb_spec step 0); [lia|].
  destruct (Z.ltb_spec 0 step); destruct H as [[H1 H2]|[H1 H2]]; try lia.
  - assert (Hq : ((stop + step - 1) / step < 1)%Z)
      by (apply Z.div_lt_upper_bound; lia).
    replace (Z.to_nat ((stop + step - 1) / step)) with 0 by lia. reflexivity.
  - assert (Hq : ((- stop - step - 1) / - step < 1)%Z)
      by (apply Z.div_lt_upper_bound; lia).
    replace (Z.to_nat ((- stop - step - 1) / - step)) with 0 by lia. reflexivity.
Qed.

Lemma flat_map_nil_blocks (X Y : Type) (l : list X) :
  flat_map (fun _ : X => @nil Y) l = [].
Proof. induction l; simpl; auto. Qed.

(** Without a whole tile in the image, or with a negative tile extent, the
    comprehension of [make_tiles] is empty and nothing is raised, whatever
    the number of axes after the first two and whatever the padding. *)
Lemma make_tiles_no_tiles (arr : ndarray A) (h w : nat) (rest : list nat)
    (tr tc : Z) (pad : nat) :
  shape arr = h :: w :: rest -> tr <> 0%Z -> tc <> 0%Z ->
  exact64 (Z.of_nat h) -> exact64 (Z.of_nat w) -> exact64 tr -> exact64 tc ->
  (tr < 0 \/ tc < 0 \/ Z.of_nat h < tr \/ Z.of_nat w < tc)%Z ->
  make_tiles nodata arr (tr, tc) pad
  = Ok (NdArray [0] [], Z.quot (Z.of_nat w) tc, Z.quot (Z.of_nat h) tr).
Proof.
  intros Hs Htr Htc Bh Bw Btr Btc Hsmall. unfold make_tiles.
  rewrite (shape_at_1 _ Hs), (shape_at_0 _ Hs). cbn [bind].
  rewrite !int_truediv_exact by (unfold exact64 in *; lia). cbn [bind].
  set (cropped := slice2 nodata arr 0 (tr * (Z.of_nat h ÷ tr)) 0
                         (tc * (Z.of_nat w ÷ tc))).
  assert (Hx : exists xs ys,
             py_range (Z.of_nat (nrows cropped)) tr = Ok xs
             /\ py_range (Z.of_nat (ncols cropped)) tc = Ok ys
             /\ (xs = [] \/ ys = [])).
  { destruct (py_range_ok (Z.of_nat (nrows cropped)) Htr) as [xs Ex].
    destruct (py_range_ok (Z.of_nat (ncols cropped)) Htc) as [ys Ey].
    exists xs, ys. split; [assumption|]. split; [assumption|].
    destruct (Z.lt_trichotomy tr 0) as [L|[L|L]]; [|contradiction|].
    { left. rewrite py_range_nil in Ex by lia. congruence. }
    destruct (Z.lt_trichotomy tc 0) as [L'|[L'|L']]; [|contradiction|].
    { right. rewrite py_range_nil in Ey by lia. congruence. }
    destruct Hsmall as [H|[H|[H|H]]]; try lia.
    - left. assert (E0 : nrows cropped = 0).
      { unfold cropped, slice2. rewrite Hs.
        rewrite Z.quot_small by lia. rewrite Z.mul_0_r.
        unfold slice_bounds at 1. unfold slice_index. cbn [Z.ltb Z.compare].
        destruct (slice_bounds w 0 (tc * (Z.of_nat w ÷ tc))) as [j0 w'].
        unfold nrows. cbn [shape nth]. lia. }
      rewrite E0, py_range_nil in Ex by lia. congruence.
    - right. assert (E0 : ncols cropped = 0).
      { unfold cropped, slice2. rewrite Hs.
        rewrite (Z.quot_small (Z.of_nat w)) by lia. rewrite Z.mul_0_r.
        destruct (slice_bounds h 0 (tr * (Z.of_nat h ÷ tr))) as [i0 h'].
        unfold slice_bounds, slice_index. cbn [Z.ltb Z.compare].
        unfold ncols. cbn [shape nth]. lia. }
      rewrite E0, py_range_nil in Ey by lia. congruence. }
  destruct Hx as (xs & ys & Ex & Ey & Hnil). rewrite Ex, Ey. cbn [bind].
  match goal with
  | |- context [flat_map ?f xs] =>
      assert (Et : flat_map f xs = [])
  end.
  { destruct Hnil as [->| ->]; [reflexivity|]. cbn [map].
    apply flat_map_nil_blocks. }
  rewrite Et. destruct (pad =? 0); reflexivity.
Qed.

(** The grid counts are fixed by the two divisions: without padding
    [make_tiles] returns them whenever the divisions succeed. *)
Lemma make_tiles_counts (arr : ndarray A) (h w : nat) (rest : list nat)
    (tr tc nx ny : Z) :
  shape arr = h :: w :: rest ->
  int_truediv (Z.of_nat w) tc = Ok nx ->
  int_truediv (Z.of_nat h) tr = Ok ny ->
  exists tiles, make_tiles nodata arr (tr, tc) 0 = Ok (tiles, nx, ny).
Proof.
  intros Hs Ex Ey. unfold make_tiles.
  rewrite (shape_at_1 _ Hs), (shape_at_0 _ Hs). cbn [bind].
  rewrite Ex, Ey. cbn [bind].
  assert (Htc : tc <> 0%Z).
  { intros ->. unfold int_truediv, truediv in Ex. discriminate Ex. }
  assert (Htr : tr <> 0%Z).
  { intros ->. unfold int_truediv, truediv in Ey. discriminate Ey. }
  destruct (py_range_ok (Z.of_nat (nrows (slice2 nodata arr 0 (tr * ny) 0 (tc * nx))))
              Htr) as [xs Exs].
  destruct (py_range_ok (Z.of_nat (ncols (slice2 nodata arr 0 (tr * ny) 0 (tc * nx))))
              Htc) as [ys Eys].
  rewrite Exs, Eys. cbn [bind Nat.eqb]. eexists. reflexivity.
Qed.

(** C6, amended. On an array with at least two axes, of extents below 2^53,
    [make_tiles] raises (a ZeroDivisionError) whenever a component of the
    tile shape is 0. With a negative component, or with an image smaller than
    one tile in either dimension (a grid count of 0), it raises nothing: it
    returns an empty tile array, of shape (0,), with the truncated quotients
    as grid counts. *)
Theorem make_tiles_degenerate (arr : ndarray A) (h w : nat) (rest : list nat)
    (tr tc : Z) (pad : nat) :
  shape arr = h :: w :: rest ->
  exact64 (Z.of_nat h) -> exact64 (Z.of_nat w) -> exact64 tr -> exact64 tc ->
  (tr = 0%Z \/ tc = 0%Z ->
   make_tiles nodata arr (tr, tc) pad = Raise ZeroDivisionError)
  /\ (tr <> 0%Z -> tc <> 0%Z ->
      (tr < 0 \/ tc < 0 \/ Z.of_nat h < tr \/ Z.of_nat w < tc)%Z ->
      make_tiles nodata arr (tr, tc) pad
      = Ok (NdArray [0] [], Z.quot (Z.of_nat w) tc, Z.quot (Z.of_nat h) tr)
      /\ (0 < tr -> 0 < tc ->
          Z.quot (Z.of_nat w) tc = 0 \/ Z.quot (Z.of_nat h) tr = 0)%Z).
Proof.
  intros Hs Bh Bw Btr Btc. split.
  - intros H0. unfold make_tiles.
    rewrite (shape_at_1 _ Hs), (shape_at_0 _ Hs). cbn [bind].
    destruct (Z.eq_dec tc 0) as [->|Htc]; [reflexivity|].
    rewrite int_truediv_exact by (unfold exact64 in *; lia). cbn [bind].
    destruct H0 as [->|H0]; [reflexivity|contradiction].
  - intros Htr Htc Hsmall. split.
    + apply make_tiles_no_tiles with (rest := rest); assumption.
    + intros Ptr Ptc. destruct Hsmall as [H|[H|[H|H]]]; try lia.
      * right. apply Z.quot_small. lia.
      * left. apply Z.quot_small. lia.
Qed.

Lemma mapM_raise_head (X Y : Type) (f : X -> result Y) (x : X) (l : list X)
    (e : exn) :
  f x = Raise e -> mapM f (x :: l) = Raise e.
Proof. intros E. cbn [mapM]. rewrite E. reflexivity. Qed.

Lemma tiles_of_head (arr : ndarray A) (tr tc : nat) :
  0 < nrows arr / tr -> 0 < ncols arr / tc ->
  exists l, tiles_of nodata arr tr tc = tile_at nodata arr tr tc 0 0 :: l.
Proof.
  intros Hr Hc. unfold tiles_of.
  destruct (nrows arr / tr) as [|m]; [lia|].
  destruct (ncols arr / tc) as [|m']; [lia|].
  cbn [seq flat_map map app]. eexists. reflexivity.
Qed.

(** C10, amended. [make_tiles] with pad > 0 raises (a ValueError) on a 2-D
    array whenever the image holds at least one whole tile, since the pad
    widths are given for three axes; when the image holds no whole tile it
    returns the empty tile array of shape (0,) instead. [stitch_tiles] raises
    (an IndexError) on every tile array with fewer than four axes, since it
    reads the channel count on the fourth. Without padding [make_tiles]
    accepts a 2-D array: with at least one whole tile it returns a 3-D tile
    array of shape (n, tr, tc), which [stitch_tiles] refuses. Extents are
    below 2^53. *)
Theorem channel_axis_required (arr : ndarray A) (h w tr tc pad : nat)
    (T : ndarray A) (nx ny tc' tr' crop : nat) :
  shape arr = [h; w] -> 0 < tr -> 0 < tc ->
  exact64 (Z.of_nat h) -> exact64 (Z.of_nat w) ->
  exact64 (Z.of_nat tr) -> exact64 (Z.of_nat tc) ->
  0 < pad -> ndim T < 4 ->
  (tr <= h -> tc <= w ->
   make_tiles nodata arr (Z.of_nat tr, Z.of_nat tc) pad = Raise ValueError)
  /\ (h < tr \/ w < tc ->
      make_tiles nodata arr (Z.of_nat tr, Z.of_nat tc) pad
      = Ok (NdArray [0] [], Z.of_nat (w / tc), Z.of_nat (h / tr)))
  /\ stitch_tiles nodata fzero to_float64 T nx ny tc' tr' crop = Raise IndexError
  /\ (tr <= h -> tc <= w ->
      exists tiles,
        make_tiles nodata arr (Z.of_nat tr, Z.of_nat tc) 0
        = Ok (tiles, Z.of_nat (w / tc), Z.of_nat (h / tr))
        /\ shape tiles = [h / tr * (w / tc); tr; tc]
        /\ stitch_tiles nodata fzero to_float64 tiles (w / tc) (h / tr) tc tr 0
           = Raise IndexError).
Proof.
  intros Hs Htr Htc Bh Bw Btr Btc Hp HT.
  assert (Hhead : tr <= h -> tc <= w ->
            exists l, tiles_of nodata arr tr tc = tile_at nodata arr tr tc 0 0 :: l).
  { intros Hh Hw. apply tiles_of_head.
    - unfold nrows. rewrite Hs. cbn [nth]. apply Nat.div_str_pos. lia.
    - unfold ncols. rewrite Hs. cbn [nth]. apply Nat.div_str_pos. lia. }
  split; [|split; [|split]].
  - intros Hh Hw. destruct (Hhead Hh Hw) as [l El].
    rewrite make_tiles_unfold with (h := h) (w := w) (rest := []) by assumption.
    destruct (Nat.eqb_spec pad 0); [lia|].
    rewrite El, mapM_raise_head with (e := ValueError); [reflexivity|].
    unfold np_pad_reflect, tile_at. rewrite Hs. reflexivity.
  - intros Hsmall.
    rewrite make_tiles_no_tiles with (h := h) (w := w) (rest := [])
      by (assumption || lia).
    rewrite !Z.quot_div_nonneg, <- !Nat2Z.inj_div by lia. reflexivity.
  - unfold stitch_tiles, shape_at.
    replace (nth_error (shape T) 3) with (@None nat); [reflexivity|].
    symmetry. apply nth_error_None. unfold ndim in HT. lia.
  - intros Hh Hw. destruct (Hhead Hh Hw) as [l El].
    exists (np_asarray (tiles_of nodata arr tr tc)). split; [|split].
    + rewrite make_tiles_unfold with (h := h) (w := w) (rest := []) by assumption.
      reflexivity.
    + assert (L : length (tiles_of nodata arr tr tc) = h / tr * (w / tc)).
      { unfold tiles_of. rewrite length_band_list.
        unfold nrows, ncols. rewrite Hs. reflexivity. }
      rewrite <- L, El. unfold np_asarray, tile_at. rewrite Hs. reflexivity.
    + unfold stitch_tiles, shape_at. rewrite El.
      unfold np_asarray, tile_at. rewrite Hs. reflexivity.
Qed.


End Claims.

(** ** Element types: what the float64 output holds *)

Section ElementTypes.

Variable nodata : sample.

Lemma in_tab3 (T : Type) (h w c : nat) (f : nat -> nat -> nat -> T) (x : T) :
  In x (tab3 h w c f) ->
  exists i j k, i < h /\ j < w /\ k < c /\ x = f i j k.
Proof.
  unfold tab3, tab. intros H.
  apply in_flat_map in H. destruct H as (i & Hi & H). apply in_seq in Hi.
  apply in_flat_map in H. destruct H as (j & Hj & H). apply in_seq in Hj.
  apply in_map_iff in H. destruct H as (k & <- & Hk). apply in_seq in Hk.
  exists i, j, k. repeat split; lia.
Qed.

Lemma data_tab3 (T : Type) (d : T) (a : ndarray T) (h w c : nat) :
  shape a = [h; w; c] -> wf a -> data a = tab3 h w c (px d a).
Proof.
  intros Hs Hwf. unfold wf in Hwf. rewrite Hs in Hwf.
  cbn [size fold_right] in Hwf.
  apply list_eq_3d with (h := h) (w := w) (c := c) (d := d).
  - rewrite Hwf. lia.
  - apply length_tab3.
  - intros i j k Hi Hj Hk. rewrite nth_tab3 by assumption.
    unfold px, ncols, depth. rewrite Hs. cbn [nth skipn size fold_right].
    rewrite Nat.mul_1_r. reflexivity.
Qed.

(** The cast keeps a float, and the value of an integer below [2^53]. *)
Lemma same_value_cast (x : sample) :
  (forall z, x = Int z -> exact64 z) -> same_value x (astype_float64 x).
Proof.
  intros H. destruct x as [z|v]; cbn [astype_float64 same_value]; [|reflexivity].
  apply float_of_int_exact. apply H. reflexivity.
Qed.

(** C1, amended. For a well-formed 3-D image whose extents are whole
    multiples of a strictly positive tile shape (and below 2^53) and whose
    samples are floats or integers below 2^53 in magnitude, [make_tiles]
    without padding followed by [stitch_tiles] on the returned grid counts,
    the same tile extents and no crop gives back the image: a well-formed
    float64 array of the same shape that holds, at every position, the value
    of the sample of the image at that position. *)
Theorem stitch_make_tiles_roundtrip (arr : ndarray sample) (r c ch tr tc : nat) :
  wf arr -> shape arr = [r * tr; c * tc; ch] ->
  1 <= r -> 1 <= c -> 0 < tr -> 0 < tc ->
  exact64 (Z.of_nat (r * tr)) -> exact64 (Z.of_nat (c * tc)) ->
  (forall z, In (Int z) (data arr) -> exact64 z) ->
  exists tiles nx ny out,
    make_tiles nodata arr (Z.of_nat tr, Z.of_nat tc) 0 = Ok (tiles, nx, ny)
    /\ stitch_tiles nodata float64_zero astype_float64 tiles
                    (Z.to_nat nx) (Z.to_nat ny) tc tr 0 = Ok out
    /\ shape out = shape arr
    /\ wf out
    /\ forall i j k, i < r * tr -> j < c * tc -> k < ch ->
         is_float64 (px float64_zero out i j k)
         /\ same_value (px nodata arr i j k) (px float64_zero out i j k).
Proof.
  intros Hwf Hs Hr Hc Htr Htc Bh Bw Hsmall.
  destruct (@roundtrip_cast sample nodata sample float64_zero astype_float64
              arr r c ch tr tc Hwf Hs Hr Hc Htr Htc Bh Bw)
    as (tiles & nx & ny & E1 & E2).
  exists tiles, nx, ny, (NdArray (shape arr) (map astype_float64 (data arr))).
  split; [exact E1|]. split; [exact E2|]. split; [reflexivity|].
  split; [unfold wf; cbn [shape data]; rewrite length_map; exact Hwf|].
  intros i j k Hi Hj Hk.
  unfold wf in Hwf. rewrite Hs in Hwf. cbn [size fold_right] in Hwf.
  pose proof (@flat_index_lt (r * tr) (c * tc) ch i j k Hi Hj Hk) as Hlt.
  assert (E : px float64_zero (NdArray (shape arr) (map astype_float64 (data arr)))
                 i j k
              = astype_float64 (px nodata arr i j k)).
  { unfold px, ncols, depth. cbn [shape data]. rewrite Hs.
    cbn [nth skipn size fold_right]. rewrite Nat.mul_1_r.
    rewrite nth_indep with (d' := astype_float64 nodata)
      by (rewrite length_map, Hwf; lia).
    apply map_nth. }
  rewrite E. split.
  - destruct (px nodata arr i j k); exact I.
  - apply same_value_cast. intros z Ez. apply Hsmall. rewrite <- Ez.
    unfold px, ncols, depth. rewrite Hs. cbn [nth skipn size fold_right].
    rewrite Nat.mul_1_r. apply nth_In. rewrite Hwf. lia.
Qed.

(** C9. On a valid input (as many tiles as slots, each of post-crop shape
    (tr, tc, c)) [stitch_tiles] returns a float64 array whatever the element
    type of the tiles: a well-formed array of shape
    (tr * grid_rows, tc * grid_cols, c) in which every sample is a float, the
    cast of the sample of the tile of its band, [crop] pixels inside that
    tile. A float sample is stored as it is, and an integer sample below
    2^53 in magnitude is stored as the float of the same value. *)
Theorem stitch_tiles_float64 (T : ndarray sample) (nx ny c tc tr crop : nat) :
  shape T = [nx * ny; tr + 2 * crop; tc + 2 * crop; c] ->
  exists out : ndarray sample,
    stitch_tiles nodata float64_zero astype_float64 T nx ny tc tr crop = Ok out
    /\ shape out = [tr * ny; tc * nx; c]
    /\ wf out
    /\ Forall is_float64 (data out)
    /\ forall i j k, i < tr * ny -> j < tc * nx -> k < c ->
         let s := px nodata (index0 T (i / tr * nx + j / tc))
                     (crop + i mod tr) (crop + j mod tc) k in
         px float64_zero out i j k = astype_float64 s
         /\ (forall x, s = Float x -> px float64_zero out i j k = Float x)
         /\ (forall z, s = Int z -> exact64 z ->
             exists x, px float64_zero out i j k = Float x
                       /\ float_int_value x = Some z).
Proof.
  intros HT.
  destruct (@stitch_tiles_cast sample nodata sample float64_zero astype_float64
              T nx ny c tc tr crop HT) as (out & E & Hso & Hwf & Hpx).
  exists out. split; [exact E|]. split; [exact Hso|]. split; [exact Hwf|].
  split.
  - rewrite (@data_tab3 sample float64_zero out (tr * ny) (tc * nx) c Hso Hwf).
    apply Forall_forall. intros x Hx.
    apply in_tab3 in Hx. destruct Hx as (i & j & k & Hi & Hj & Hk & ->).
    rewrite Hpx by assumption.
    destruct (px nodata _ _ _ _); exact I.
  - intros i j k Hi Hj Hk s. subst s. rewrite Hpx by assumption.
    split; [reflexivity|]. split.
    + intros x ->. reflexivity.
    + intros z -> Hz. cbn [astype_float64]. eexists. split; [reflexivity|].
      apply float_of_int_exact. exact Hz.
Qed.

End ElementTypes.

(** ** The resizer *)

Lemma heights_close_16 : heights_close_upto 16 = true.
Proof. vm_compute. reflexivity. Qed.

Lemma height_close_small (h w width : nat) :
  h <= 16 -> 1 <= w -> w <= 16 -> 1 <= width -> width <= 16 ->
  height_close (Z.of_nat h) (Z.of_nat w) (Z.of_nat width) = true.
Proof.
  intros Hh Hw1 Hw2 Ht1 Ht2.
  pose proof heights_close_16 as H. unfold heights_close_upto in H.
  rewrite forallb_forall in H.
  specialize (H h ltac:(apply in_seq; lia)).
  rewrite forallb_forall in H.
  specialize (H w ltac:(apply in_seq; lia)).
  rewrite forallb_forall in H.
  apply H. apply in_seq. lia.
Qed.

Section Resizer.

Variable A : Type.
Variable cv2_resize : ndarray A -> Z * Z -> result (ndarray A).
Hypothesis cv2 : cv2_contract cv2_resize.

Lemma resize_unfold (arr : ndarray A) (h w : nat) (rest : list nat) (width : Z) :
  shape arr = h :: w :: rest ->
  resize cv2_resize arr width
  = (height <- resize_height (Z.of_nat h) (Z.of_nat w) width ;;
     cv2_resize arr (width, height)).
Proof.
  intros Hs. unfold resize, resize_height, shape_at. rewrite Hs.
  cbn [nth_error bind].
  destruct (truediv width (Z.of_nat w)); reflexivity.
Qed.

(** For an image of shape (h, w, ...) with w > 0, [resize] asks OpenCV for
    the size (width, ht) where ht = int(h * (width / w)) is computed in
    binary64: the call fails when ht or width is not positive, and an array
    that comes back has ht rows and width columns. The height ht is the exact
    floor of h * width / w or one below it for all h, w, width <= 16. *)
Lemma resize_passes_height (arr : ndarray A) (h w : nat) (rest : list nat)
    (width ht : Z) :
  shape arr = h :: w :: rest -> 0 < w ->
  resize_height (Z.of_nat h) (Z.of_nat w) width = Ok ht ->
  resize cv2_resize arr width = cv2_resize arr (width, ht)
  /\ ((ht <= 0 \/ width <= 0)%Z -> resize cv2_resize arr width = Raise cv2_error)
  /\ (forall dst, resize cv2_resize arr width = Ok dst ->
                  nrows dst = Z.to_nat ht /\ ncols dst = Z.to_nat width)
  /\ (h <= 16 -> w <= 16 -> (1 <= width <= 16)%Z ->
      ht = (Z.of_nat h * width / Z.of_nat w)%Z
      \/ ht = (Z.of_nat h * width / Z.of_nat w - 1)%Z).
Proof.
  intros Hs Hw Hht.
  rewrite resize_unfold with (h := h) (w := w) (rest := rest) by assumption.
  rewrite Hht. cbn [bind].
  split; [reflexivity|split; [|split]].
  - intros Hneg. apply (cv2_refuses cv2). lia.
  - intros dst E. eapply (cv2_shape cv2); exact E.
  - intros Hh Hw' Hwd.
    pose proof (@height_close_small h w (Z.to_nat width)) as Hc.
    rewrite Z2Nat.id in Hc by lia. unfold height_close in Hc.
    rewrite Hht in Hc.
    specialize (Hc ltac:(lia) ltac:(lia) ltac:(lia) ltac:(lia) ltac:(lia)).
    apply orb_true_iff in Hc. destruct Hc as [Hc|Hc]; apply Z.eqb_eq in Hc; auto.
Qed.

(** C8. [resize] fails whenever the target width is not positive or the
    image has no column: it raises and returns no array. *)
Theorem resize_invalid_dimension (arr : ndarray A) (width : Z) :
  (width <= 0)%Z \/ shape_at arr 1 = Ok 0 ->
  raises (resize cv2_resize arr width)
  /\ forall dst, resize cv2_resize arr width <> Ok dst.
Proof.
  intros Hbad.
  assert (R : raises (resize cv2_resize arr width)).
  { unfold resize.
    destruct (shape_at arr 1) as [w|e] eqn:Ew; [|eexists; reflexivity].
    cbn [bind].
    destruct Hbad as [Hwd|Hw0].
    - destruct (truediv width (Z.of_nat w)) as [ratio|e]; [|eexists; reflexivity].
      cbn [bind].
      destruct (shape_at arr 0) as [h|e]; [|eexists; reflexivity]. cbn [bind].
      destruct (int_of_float _) as [ht|e]; [|eexists; reflexivity]. cbn [bind].
      exists cv2_error. apply (cv2_refuses cv2). lia.
    - inversion Hw0. eexists. reflexivity. }
  split; [exact R|].
  intros dst E. destruct R as [e R]. congruence.
Qed.

End Resizer.

(** ** The stand-in for OpenCV meets the contract *)

Lemma cv2_resize_nearest_contract (A : Type) (nodata : A) :
  cv2_contract (cv2_resize_nearest nodata).
Proof.
  constructor.
  - intros src w h Hneg. unfold cv2_resize_nearest.
    destruct (shape src) as [|sh [|sw rest]]; try reflexivity.
    destruct (Z.leb_spec w 0); [reflexivity|].
    destruct (Z.leb_spec h 0); [reflexivity|]. lia.
  - intros src w h dst E. unfold cv2_resize_nearest in E.
    destruct (shape src) as [|sh [|sw rest]]; try discriminate.
    destruct (_ || _); [discriminate|].
    inversion E. split; reflexivity.
Qed.

(** * The claims on concrete arrays

    Integer samples, cast to binary64 when stitched. *)

Lemma stitch_make_tiles_roundtrip_example :
  exists tiles nx ny out,
    make_tiles (Int 0) (int_ramp [4; 6; 1]) (2, 3)%Z 0 = Ok (tiles, nx, ny)
    /\ stitch_tiles (Int 0) float64_zero astype_float64 tiles
                    (Z.to_nat nx) (Z.to_nat ny) 3 2 0 = Ok out
    /\ shape out = [4; 6; 1]
    /\ same_value (Int 23) (px float64_zero out 3 5 0).
Proof.
  destruct (@stitch_make_tiles_roundtrip (Int 0) (int_ramp [4; 6; 1]) 2 2 1 2 3)
    as (tiles & nx & ny & out & E1 & E2 & Hs & _ & H);
    [reflexivity | reflexivity | lia | lia | lia | lia
     | unfold exact64; lia | unfold exact64; lia | |].
  - intros z Hz. apply in_map_iff in Hz. destruct Hz as (n & E & Hn).
    inversion E. apply in_seq in Hn. cbn in Hn. unfold exact64. lia.
  - exists tiles, nx, ny, out. split; [exact E1|]. split; [exact E2|].
    split; [exact Hs|].
    destruct (H 3 5 0 ltac:(lia) ltac:(lia) ltac:(lia)) as [_ Hv]. exact Hv.
Defined.

Lemma row_major_order_example :
  exists out,
    stitch_tiles 0%Z (S754_zero false) float_of_int (ramp [4; 2; 3; 1]) 2 2 3 2 0
    = Ok out
    /\ px (S754_zero false) out (3 / 2 * 2 + 1) (3 mod 2 * 3 + 2) 0
       = float_of_int 23.
Proof.
  destruct (@row_major_order Z 0%Z spec_float (S754_zero false) float_of_int
              (ramp [4; 6; 1]) 4 6 1 2 3 (ramp [4; 2; 3; 1]) 2 2 1 0)
    as [_ (out & E & H)];
    [reflexivity | lia | lia | unfold exact64; lia | unfold exact64; lia
     | unfold exact64; lia | unfold exact64; lia | reflexivity |].
  exists out. split; [exact E|].
  apply (H 3 1 2 0); lia.
Defined.

Lemma make_tiles_grid_example :
  exists tiles,
    make_tiles 0%Z (ramp [5; 7; 1]) (2, 3)%Z 1 = Ok (tiles, 2%Z, 2%Z)
    /\ nth 0 (shape tiles) 0 = 4.
Proof.
  destruct (@make_tiles_grid Z 0%Z (ramp [5; 7; 1]) 5 7 1 2 3 1)
    as (tiles & E & _ & N & _);
    [reflexivity | lia | lia | unfold exact64; lia | unfold exact64; lia
     | unfold exact64; lia | unfold exact64; lia |].
  exists tiles. split; [exact E | exact N].
Defined.


Lemma stitch_tiles_outcome_example :
  stitch_tiles 0%Z (S754_zero false) float_of_int (ramp [4; 2; 3; 1]) 1 2 3 2 0
  = Raise ValueError.
Proof.
  destruct (@stitch_tiles_outcome Z 0%Z spec_float (S754_zero false) float_of_int
              (ramp [4; 2; 3; 1]) 4 2 3 1 1 2 3 2 0 eq_refl) as [H _].
  apply H. left. lia.
Defined.

Lemma make_tiles_degenerate_example :
  make_tiles 0%Z (ramp [4; 4; 1]) (0, 2)%Z 0 = Raise ZeroDivisionError
  /\ make_tiles 0%Z (ramp [4; 4]) (5, 2)%Z 1
     = Ok (NdArray [0] [], Z.quot 4 2, Z.quot 4 5).
Proof.
  split.
  - destruct (@make_tiles_degenerate Z 0%Z (ramp [4; 4; 1]) 4 4 [1] 0%Z 2%Z 0
                eq_refl)
      as [H _]; [unfold exact64; lia | unfold exact64; lia
                 | unfold exact64; lia | unfold exact64; lia |].
    apply H. left. reflexivity.
  - destruct (@make_tiles_degenerate Z 0%Z (ramp [4; 4]) 4 4 [] 5%Z 2%Z 1
                eq_refl)
      as [_ H]; [unfold exact64; lia | unfold exact64; lia
                 | unfold exact64; lia | unfold exact64; lia |].
    apply H; lia.
Defined.

Lemma resize_invalid_dimension_example :
  raises (resize (cv2_resize_nearest 0%Z) (ramp [4; 6; 3]) 0).
Proof.
  apply (@resize_invalid_dimension Z (cv2_resize_nearest 0%Z)
           (cv2_resize_nearest_contract 0%Z) (ramp [4; 6; 3]) 0%Z).
  left. lia.
Defined.

Lemma stitch_tiles_float64_example :
  exists out : ndarray sample,
    stitch_tiles (Int 0) float64_zero astype_float64
                 (int_ramp [4; 4; 5; 1]) 2 2 3 2 1 = Ok out
    /\ shape out = [4; 6; 1]
    /\ Forall is_float64 (data out)
    /\ exists x, px float64_zero out 0 0 0 = Float x
                 /\ float_int_value x = Some 6%Z.
Proof.
  destruct (@stitch_tiles_float64 (Int 0) (int_ramp [4; 4; 5; 1]) 2 2 1 3 2 1
              eq_refl)
    as (out & E & Hs & _ & Hf & H).
  exists out. split; [exact E|]. split; [exact Hs|]. split; [exact Hf|].
  destruct (H 0 0 0 ltac:(lia) ltac:(lia) ltac:(lia)) as (_ & _ & Hi).
  apply (Hi 6%Z); [reflexivity | unfold exact64; lia].
Defined.

Lemma channel_axis_required_example :
  make_tiles 0%Z (ramp [2; 2]) (1, 1)%Z 1 = Raise ValueError
  /\ stitch_tiles 0%Z (S754_zero false) float_of_int (ramp [4; 1; 1]) 2 2 1 1 0
     = Raise IndexError
  /\ exists tiles,
       make_tiles 0%Z (ramp [2; 2]) (1, 1)%Z 0 = Ok (tiles, 2%Z, 2%Z)
       /\ shape tiles = [4; 1; 1].
Proof.
  destruct (@channel_axis_required Z 0%Z spec_float (S754_zero false) float_of_int
              (ramp [2; 2]) 2 2 1 1 1 (ramp [4; 1; 1]) 2 2 1 1 0)
    as (H1 & _ & H2 & H3);
    [reflexivity | lia | lia | unfold exact64; lia | unfold exact64; lia
     | unfold exact64; lia | unfold exact64; lia | lia | cbn; lia |].
  split; [apply H1; lia|]. split; [exact H2|].
  destruct (H3 ltac:(lia) ltac:(lia)) as (tiles & E & Hs & _).
  exists tiles. split; [exact E | exact Hs].
Defined.

(** ** Where the code departs from the specification *)

(** C1. A 1 x 1 x 1 image whose integer sample is 2^53 + 1: the stitched
    image holds 2^53. *)
Lemma roundtrip_rounds_large_sample :
  make_tiles (Int 0) (NdArray [1; 1; 1] [Int 9007199254740993]) (1, 1)%Z 0
  = Ok (NdArray [1; 1; 1; 1] [Int 9007199254740993], 1%Z, 1%Z)
  /\ stitch_tiles (Int 0) float64_zero astype_float64
                  (NdArray [1; 1; 1; 1] [Int 9007199254740993]) 1 1 1 1 0
     = Ok (NdArray [1; 1; 1] [Float (float_of_int 9007199254740993)])
  /\ float_int_value (float_of_int 9007199254740993)
     = Some 9007199254740992%Z
  /\ ~ same_value (Int 9007199254740993)
                  (Float (float_of_int 9007199254740993)).
Proof.
  split; [vm_compute; reflexivity|]. split; [vm_compute; reflexivity|].
  split; [vm_compute; reflexivity|].
  vm_compute. intros H. discriminate H.
Qed.

(** C3. An empty image of shape (0, 2^53 + 1, 1) and tiles of one pixel: the
    integer quotient of the width is 2^53 + 1, the column count returned is
    2^53. *)
Lemma make_tiles_counts_rounded :
  wf (NdArray [0; Z.to_nat 9007199254740993; 1] (@nil Z))
  /\ (Z.of_nat (Z.to_nat 9007199254740993 / 1) = 9007199254740993)%Z
  /\ exists tiles,
       make_tiles 0%Z (NdArray [0; Z.to_nat 9007199254740993; 1] []) (1, 1)%Z 0
       = Ok (tiles, 9007199254740992%Z, 0%Z).
Proof.
  split; [reflexivity|]. split.
  - rewrite Nat.div_1_r. apply Z2Nat.id. lia.
  - apply (@make_tiles_counts Z 0%Z
             (NdArray [0; Z.to_nat 9007199254740993; 1] [])
             0 (Z.to_nat 9007199254740993) [1] 1%Z 1%Z
             9007199254740992%Z 0%Z eq_refl).
    + rewrite Z2Nat.id by lia. vm_compute. reflexivity.
    + vm_compute. reflexivity.
Qed.

(** C5. One tile for a grid of two slots, and a tile of post-crop shape
    (1, 1, 1) for slots of shape (2, 2, 1): [stitch_tiles] returns in both
    cases. *)
Lemma stitch_tiles_accepts_mismatch :
  1 <> 2 * 1
  /\ stitch_tiles 0%Z 0%Z (fun x : Z => x) (NdArray [1; 1; 1; 1] [7%Z]) 2 1 1 1 0
     = Ok (NdArray [1; 2; 1] [7; 0]%Z)
  /\ [1; 1; 1] <> [2; 2; 1]
  /\ stitch_tiles 0%Z 0%Z (fun x : Z => x) (NdArray [1; 1; 1; 1] [7%Z]) 1 1 2 2 0
     = Ok (NdArray [2; 2; 1] [7; 7; 7; 7]%Z).
Proof.
  split; [lia|]. split; [reflexivity|]. split; [discriminate|]. reflexivity.
Qed.

(** C6. A negative tile shape, and an image smaller than one tile:
    [make_tiles] returns in both cases. *)
Lemma make_tiles_returns_without_tiles :
  make_tiles 0%Z (ramp [4; 4; 1]) (-2, -2)%Z 0
  = Ok (NdArray [0] [], (-2)%Z, (-2)%Z)
  /\ make_tiles 0%Z (ramp [1; 1; 1]) (2, 2)%Z 0 = Ok (NdArray [0] [], 0%Z, 0%Z).
Proof. split; vm_compute; reflexivity. Qed.

(** C7. An 11 x 11 image resized to width 15: the exact floor of
    11 * 15 / 11 is 15, and the height that [resize] computes and passes to
    OpenCV is 14, whatever the samples and the channels of the image. *)
Theorem resize_height_below_floor :
  (11 * 15 / 11 = 15)%Z
  /\ resize_height 11 11 15 = Ok 14%Z
  /\ (forall (A : Type) (cv2_resize : ndarray A -> Z * Z -> result (ndarray A))
             (rest : list nat) (samples : list A),
        resize cv2_resize (NdArray (11 :: 11 :: rest) samples) 15
        = cv2_resize (NdArray (11 :: 11 :: rest) samples) (15, 14)%Z)
  /\ exists dst,
       resize (cv2_resize_nearest 0%Z) (ramp [11; 11]) 15 = Ok dst
       /\ shape dst = [14; 15].
Proof.
  assert (E : resize_height 11 11 15 = Ok 14%Z) by (vm_compute; reflexivity).
  split; [reflexivity|]. split; [exact E|]. split.
  - intros A cv2_resize rest samples.
    rewrite resize_unfold with (h := 11) (w := 11) (rest := rest) by reflexivity.
    change (Z.of_nat 11) with 11%Z. rewrite E. reflexivity.
  - eexists. split; [vm_compute; reflexivity|reflexivity].
Qed.

(** C10. A 2-D image smaller than one tile, with pad = 1: [make_tiles]
    returns; and a 2-D image without padding: [make_tiles] returns its four
    tiles of one pixel. *)
Lemma make_tiles_pads_no_tile :
  make_tiles 0%Z (ramp [1; 1]) (2, 2)%Z 1 = Ok (NdArray [0] [], 0%Z, 0%Z)
  /\ make_tiles 0%Z (ramp [2; 2]) (1, 1)%Z 0
     = Ok (NdArray [4; 1; 1] [0; 1; 2; 3]%Z, 2%Z, 2%Z).
Proof. split; vm_compute; reflexivity. Qed.

(** * Further properties of the code *)

Section Pipeline.

Variable A : Type.
Variable nodata : A.
Variable F : Type.
Variable fzero : F.
Variable to_float64 : A -> F.

(** A tile extent within an image extent below [2^53] is below [2^53]. *)
Ltac bounded h w :=
  first [ assumption
        | apply exact64_le with (b := h); [lia|assumption]
        | apply exact64_le with (b := w); [lia|assumption] ].

(** Sample of the stitched image at any position, for tiles whose post-crop
    shape is the tile shape. *)
Lemma stitched_at (T : ndarray A) (n c nx ny tc tr crop : nat)
    (out : ndarray F) (i j k : nat) :
  shape T = [n; tr + 2 * crop; tc + 2 * crop; c] ->
  stitched nodata fzero to_float64 T (tr + 2 * crop) (tc + 2 * crop) c
           nx ny tc tr crop n out ->
  i < tr * ny -> j < tc * nx -> k < c ->
  px fzero out i j k
  = if i / tr * nx + j / tc <? n
    then to_float64 (px nodata (index0 T (i / tr * nx + j / tc))
                        (crop + i mod tr) (crop + j mod tc) k)
    else fzero.
Proof.
  intros HT (_ & _ & Hp) Hi Hj Hk.
  assert (Htr : 0 < tr) by nia. assert (Htc : 0 < tc) by nia.
  pose proof (Nat.mod_upper_bound i tr ltac:(lia)) as Mi.
  pose proof (Nat.mod_upper_bound j tc ltac:(lia)) as Mj.
  rewrite Hp by assumption.
  destruct (_ <? n); [|reflexivity]. f_equal. unfold src_index.
  replace (tr + 2 * crop - 2 * crop) with tr by lia.
  replace (tc + 2 * crop - 2 * crop) with tc by lia.
  replace (if tr =? 1 then 0 else i mod tr) with (i mod tr)
    by (destruct (Nat.eqb_spec tr 1); lia).
  replace (if tc =? 1 then 0 else j mod tc) with (j mod tc)
    by (destruct (Nat.eqb_spec tc 1); lia).
  apply px_input_tile with (n := n) (th := tr + 2 * crop) (tw := tc + 2 * crop) (c := c);
    [assumption|lia|lia|assumption].
Qed.

Lemma broadcasts_same (a crop : nat) : broadcasts (a + 2 * crop - 2 * crop) a = true.
Proof.
  unfold broadcasts. replace (a + 2 * crop - 2 * crop) with a by lia.
  rewrite Nat.eqb_refl. reflexivity.
Qed.

(** X1. Cropping at stitch time what was padded at tiling time gives back
    the source, cropped to whole tiles: for every image that holds at least
    one tile and every pad, [stitch_tiles] with [crop = pad] on the tiles
    of [make_tiles] returns the kept region of the image, cast to float64.
    The extents of the image are below 2^53. *)
Theorem stitch_crop_undoes_pad (arr : ndarray A) (h w c tr tc pad : nat) :
  shape arr = [h; w; c] -> 0 < tr -> tr <= h -> 0 < tc -> tc <= w ->
  exact64 (Z.of_nat h) -> exact64 (Z.of_nat w) ->
  exists tiles out,
    make_tiles nodata arr (Z.of_nat tr, Z.of_nat tc) pad
    = Ok (tiles, Z.of_nat (w / tc), Z.of_nat (h / tr))
    /\ stitch_tiles nodata fzero to_float64 tiles (w / tc) (h / tr) tc tr pad
       = Ok out
    /\ shape out = [tr * (h / tr); tc * (w / tc); c]
    /\ wf out
    /\ forall i j k, i < tr * (h / tr) -> j < tc * (w / tc) -> k < c ->
         px fzero out i j k = to_float64 (px nodata arr i j k).
Proof.
  intros Hs Htr Hh Htc Hw Bh Bw.
  assert (Hny : 0 < h / tr) by (apply Nat.div_str_pos; lia).
  assert (Hnx : 0 < w / tc) by (apply Nat.div_str_pos; lia).
  assert (Hpos : 0 < w / tc * (h / tr)) by nia.
  set (T := np_asarray (padded_tiles_of nodata arr tr tc pad)).
  destruct (@tile_grid A nodata arr h w c tr tc pad Hs Hpos) as (HT & _ & _).
  fold T in HT.
  destruct (@stitch_tiles_ok A nodata F fzero to_float64 T (w / tc * (h / tr))
              (tr + 2 * pad) (tc + 2 * pad) c (w / tc) (h / tr) tc tr pad HT)
    as (out & E & Hp).
  { lia. }
  { right. split; apply broadcasts_same. }
  exists T, out.
  split; [apply make_tiles_3d with (c := c); bounded h w|].
  split; [exact E|].
  pose proof Hp as (Hso & Hlo & _).
  split; [exact Hso|]. split.
  { unfold wf. rewrite Hso, Hlo. cbn [size fold_right]. lia. }
  intros i j k Hi Hj Hk.
  rewrite (stitched_at HT Hp) by assumption.
  assert (Ha : i / tr < h / tr) by (apply Nat.Div0.div_lt_upper_bound; lia).
  assert (Hb : j / tc < w / tc) by (apply Nat.Div0.div_lt_upper_bound; lia).
  pose proof (band_index_lt Ha Hb) as Hn.
  destruct (Nat.ltb_spec (i / tr * (w / tc) + j / tc) (w / tc * (h / tr))); [|lia].
  f_equal.
  pose proof (Nat.mod_upper_bound i tr ltac:(lia)) as Mi.
  pose proof (Nat.mod_upper_bound j tc ltac:(lia)) as Mj.
  unfold T. rewrite tile_sample with (h := h) (w := w) (c := c)
    by (assumption || lia).
  destruct (@band_of_index (w / tc) (i / tr) (j / tc) Hb) as [Q R].
  rewrite Q, R.
  replace (Z.of_nat (pad + i mod tr) - Z.of_nat pad)%Z with (Z.of_nat (i mod tr))
    by lia.
  replace (Z.of_nat (pad + j mod tc) - Z.of_nat pad)%Z with (Z.of_nat (j mod tc))
    by lia.
  rewrite !reflect_index_inside by assumption.
  pose proof (Nat.div_mod_eq i tr). pose proof (Nat.div_mod_eq j tc).
  f_equal; lia.
Qed.

(** X2. Padded tiles cannot be stitched with a smaller crop into slots of
    the unpadded tile shape: with [crop < pad] the assignment of the first
    tile raises a ValueError. The extents of the image are below 2^53. *)
Theorem stitch_crop_below_pad_raises (arr : ndarray A)
    (h w c tr tc pad crop : nat) :
  shape arr = [h; w; c] -> 0 < tr -> tr <= h -> 0 < tc -> tc <= w ->
  exact64 (Z.of_nat h) -> exact64 (Z.of_nat w) ->
  crop < pad ->
  exists tiles,
    make_tiles nodata arr (Z.of_nat tr, Z.of_nat tc) pad
    = Ok (tiles, Z.of_nat (w / tc), Z.of_nat (h / tr))
    /\ stitch_tiles nodata fzero to_float64 tiles (w / tc) (h / tr) tc tr crop
       = Raise ValueError.
Proof.
  intros Hs Htr Hh Htc Hw Bh Bw Hc.
  assert (Hny : 0 < h / tr) by (apply Nat.div_str_pos; lia).
  assert (Hnx : 0 < w / tc) by (apply Nat.div_str_pos; lia).
  assert (Hpos : 0 < w / tc * (h / tr)) by nia.
  destruct (@tile_grid A nodata arr h w c tr tc pad Hs Hpos) as (HT & _ & _).
  exists (np_asarray (padded_tiles_of nodata arr tr tc pad)).
  split; [apply make_tiles_3d with (c := c); bounded h w|].
  apply stitch_tiles_raises with (n := w / tc * (h / tr)) (th := tr + 2 * pad)
                                 (tw := tc + 2 * pad) (c := c); [assumption|].
  right. split; [assumption|]. left. unfold broadcasts.
  destruct (Nat.eqb_spec (tr + 2 * pad - 2 * crop) tr); [lia|].
  destruct (Nat.eqb_spec (tr + 2 * pad - 2 * crop) 1); [lia|]. reflexivity.
Qed.

(** X3. Stitching padded tiles without crop into slots of the padded tile
    shape keeps the padding: the output is the mosaic of the padded tiles,
    every sample being the mirrored source sample of its tile. The extents
    of the image are below 2^53. *)
Theorem stitch_keeps_padding (arr : ndarray A) (h w c tr tc pad : nat) :
  shape arr = [h; w; c] -> 0 < tr -> tr <= h -> 0 < tc -> tc <= w ->
  exact64 (Z.of_nat h) -> exact64 (Z.of_nat w) ->
  exists tiles out,
    make_tiles nodata arr (Z.of_nat tr, Z.of_nat tc) pad
    = Ok (tiles, Z.of_nat (w / tc), Z.of_nat (h / tr))
    /\ stitch_tiles nodata fzero to_float64 tiles (w / tc) (h / tr)
                    (tc + 2 * pad) (tr + 2 * pad) 0
       = Ok out
    /\ shape out = [(tr + 2 * pad) * (h / tr); (tc + 2 * pad) * (w / tc); c]
    /\ wf out
    /\ forall i j k,
         i < (tr + 2 * pad) * (h / tr) -> j < (tc + 2 * pad) * (w / tc) -> k < c ->
         px fzero out i j k
         = to_float64
             (px nodata arr
                 (i / (tr + 2 * pad) * tr
                  + reflect_index tr (Z.of_nat (i mod (tr + 2 * pad)) - Z.of_nat pad))
                 (j / (tc + 2 * pad) * tc
                  + reflect_index tc (Z.of_nat (j mod (tc + 2 * pad)) - Z.of_nat pad))
                 k).
Proof.
  intros Hs Htr Hh Htc Hw Bh Bw.
  assert (Hny : 0 < h / tr) by (apply Nat.div_str_pos; lia).
  assert (Hnx : 0 < w / tc) by (apply Nat.div_str_pos; lia).
  assert (Hpos : 0 < w / tc * (h / tr)) by nia.
  set (T := np_asarray (padded_tiles_of nodata arr tr tc pad)).
  destruct (@tile_grid A nodata arr h w c tr tc pad Hs Hpos) as (HT & _ & _).
  fold T in HT.
  assert (HT' : shape T = [w / tc * (h / tr); tr + 2 * pad + 2 * 0;
                           tc + 2 * pad + 2 * 0; c]).
  { rewrite HT. rewrite !Nat.mul_0_r, !Nat.add_0_r. reflexivity. }
  destruct (@stitch_tiles_ok A nodata F fzero to_float64 T (w / tc * (h / tr))
              (tr + 2 * pad + 2 * 0) (tc + 2 * pad + 2 * 0) c (w / tc) (h / tr)
              (tc + 2 * pad) (tr + 2 * pad) 0 HT')
    as (out & E & Hp).
  { lia. }
  { right. split; apply broadcasts_same. }
  exists T, out.
  split; [apply make_tiles_3d with (c := c); bounded h w|].
  split; [exact E|].
  pose proof Hp as (Hso & Hlo & _).
  split; [exact Hso|]. split.
  { unfold wf. rewrite Hso, Hlo. cbn [size fold_right]. lia. }
  intros i j k Hi Hj Hk.
  rewrite (stitched_at HT' Hp) by assumption.
  assert (Ha : i / (tr + 2 * pad) < h / tr)
    by (apply Nat.Div0.div_lt_upper_bound; lia).
  assert (Hb : j / (tc + 2 * pad) < w / tc)
    by (apply Nat.Div0.div_lt_upper_bound; lia).
  pose proof (band_index_lt Ha Hb) as Hn.
  destruct (Nat.ltb_spec (i / (tr + 2 * pad) * (w / tc) + j / (tc + 2 * pad))
                         (w / tc * (h / tr))); [|lia].
  f_equal.
  pose proof (Nat.mod_upper_bound i (tr + 2 * pad) ltac:(lia)) as Mi.
  pose proof (Nat.mod_upper_bound j (tc + 2 * pad) ltac:(lia)) as Mj.
  unfold T. rewrite tile_sample with (h := h) (w := w) (c := c)
    by (assumption || lia).
  destruct (@band_of_index (w / tc) (i / (tr + 2 * pad)) (j / (tc + 2 * pad)) Hb)
    as [Q R].
  rewrite Q, R. reflexivity.
Qed.

(** X4. Without padding no sample of the kept region is lost: the source
    sample at row [i] and column [j] is the sample at
    ([i mod tr], [j mod tc]) of the tile of index
    (i / tr) * grid_cols + j / tc. The extents of the image and of the tiles
    are below 2^53. *)
Theorem make_tiles_covers (arr : ndarray A) (h w c tr tc : nat) :
  shape arr = [h; w; c] -> 0 < tr -> 0 < tc ->
  exact64 (Z.of_nat h) -> exact64 (Z.of_nat w) ->
  exact64 (Z.of_nat tr) -> exact64 (Z.of_nat tc) ->
  exists tiles,
    make_tiles nodata arr (Z.of_nat tr, Z.of_nat tc) 0
    = Ok (tiles, Z.of_nat (w / tc), Z.of_nat (h / tr))
    /\ forall i j k, i < tr * (h / tr) -> j < tc * (w / tc) -> k < c ->
         i / tr * (w / tc) + j / tc < w / tc * (h / tr)
         /\ px nodata (index0 tiles (i / tr * (w / tc) + j / tc))
               (i mod tr) (j mod tc) k
            = px nodata arr i j k.
Proof.
  intros Hs Htr Htc Bh Bw Btr Btc.
  exists (np_asarray (padded_tiles_of nodata arr tr tc 0)).
  split; [apply make_tiles_3d with (c := c); assumption|].
  intros i j k Hi Hj Hk.
  assert (Ha : i / tr < h / tr) by (apply Nat.Div0.div_lt_upper_bound; lia).
  assert (Hb : j / tc < w / tc) by (apply Nat.Div0.div_lt_upper_bound; lia).
  pose proof (band_index_lt Ha Hb) as Hn.
  split; [exact Hn|].
  pose proof (Nat.mod_upper_bound i tr ltac:(lia)) as Mi.
  pose proof (Nat.mod_upper_bound j tc ltac:(lia)) as Mj.
  rewrite tile_sample with (h := h) (w := w) (c := c) by (assumption || lia).
  destruct (@band_of_index (w / tc) (i / tr) (j / tc) Hb) as [Q R].
  rewrite Q, R, !Z.sub_0_r, !reflect_index_inside by assumption.
  pose proof (Nat.div_mod_eq i tr). pose proof (Nat.div_mod_eq j tc).
  f_equal; lia.
Qed.

(** X5. With fewer tiles than slots [stitch_tiles] fills the slots of the
    tiles it has, in row-major order, and leaves the remaining slots at
    zero; with no tile at all the output is all zeros. *)
Theorem stitch_partial_grid (T : ndarray A) (n c nx ny tc tr crop : nat) :
  shape T = [n; tr + 2 * crop; tc + 2 * crop; c] -> n <= nx * ny ->
  exists out,
    stitch_tiles nodata fzero to_float64 T nx ny tc tr crop = Ok out
    /\ shape out = [tr * ny; tc * nx; c]
    /\ wf out
    /\ forall i j k, i < tr * ny -> j < tc * nx -> k < c ->
         px fzero out i j k
         = if i / tr * nx + j / tc <? n
           then to_float64 (px nodata (index0 T (i / tr * nx + j / tc))
                               (crop + i mod tr) (crop + j mod tc) k)
           else fzero.
Proof.
  intros HT Hn.
  destruct (@stitch_tiles_ok A nodata F fzero to_float64 T n
              (tr + 2 * crop) (tc + 2 * crop) c nx ny tc tr crop HT Hn)
    as (out & E & Hp).
  { right. split; apply broadcasts_same. }
  exists out. split; [exact E|].
  pose proof Hp as (Hso & Hlo & _). split; [exact Hso|]. split.
  { unfold wf. rewrite Hso, Hlo. cbn [size fold_right]. lia. }
  intros i j k Hi Hj Hk. apply stitched_at with (ny := ny) (c := c); assumption.
Qed.

(** X6. A tile whose post-crop shape is (1, 1, c) is broadcast: it fills
    its whole slot, of any extent, with its single pixel. *)
Theorem stitch_broadcasts_pixel (T : ndarray A) (n c nx ny tc tr crop : nat) :
  shape T = [n; 1 + 2 * crop; 1 + 2 * crop; c] -> n <= nx * ny ->
  exists out,
    stitch_tiles nodata fzero to_float64 T nx ny tc tr crop = Ok out
    /\ forall i j k, i < tr * ny -> j < tc * nx -> k < c ->
         i / tr * nx + j / tc < n ->
         px fzero out i j k
         = to_float64 (px nodata (index0 T (i / tr * nx + j / tc)) crop crop k).
Proof.
  intros HT Hn.
  destruct (@stitch_tiles_ok A nodata F fzero to_float64 T n
              (1 + 2 * crop) (1 + 2 * crop) c nx ny tc tr crop HT Hn)
    as (out & E & Hp).
  { right. unfold broadcasts.
    replace (1 + 2 * crop - 2 * crop) with 1 by lia.
    rewrite !orb_true_r. split; reflexivity. }
  exists out. split; [exact E|].
  destruct Hp as (_ & _ & Hp).
  intros i j k Hi Hj Hk Hlt. rewrite Hp by assumption.
  destruct (Nat.ltb_spec (i / tr * nx + j / tc) n); [|lia].
  f_equal. unfold src_index.
  replace (1 + 2 * crop - 2 * crop) with 1 by lia. cbn [Nat.eqb].
  rewrite px_input_tile with (n := n) (th := 1 + 2 * crop) (tw := 1 + 2 * crop) (c := c)
    by (assumption || lia).
  rewrite !Nat.add_0_r. reflexivity.
Qed.

(** X7. An image smaller than one tile, both of extents below 2^53, does
    not survive the pipeline: [make_tiles] returns an empty 1-D tile array,
    on which [stitch_tiles] raises an IndexError whatever its other
    arguments. *)
Theorem stitch_refuses_empty_grid (arr : ndarray A) (h w c tr tc pad : nat) :
  shape arr = [h; w; c] -> 0 < tr -> 0 < tc -> h < tr \/ w < tc ->
  exact64 (Z.of_nat h) -> exact64 (Z.of_nat w) ->
  exact64 (Z.of_nat tr) -> exact64 (Z.of_nat tc) ->
  exists tiles,
    make_tiles nodata arr (Z.of_nat tr, Z.of_nat tc) pad
    = Ok (tiles, Z.of_nat (w / tc), Z.of_nat (h / tr))
    /\ shape tiles = [0]
    /\ forall nx ny tc' tr' crop,
         stitch_tiles nodata fzero to_float64 tiles nx ny tc' tr' crop
         = Raise IndexError.
Proof.
  intros Hs Htr Htc Hsmall Bh Bw Btr Btc.
  assert (E0 : w / tc * (h / tr) = 0).
  { destruct Hsmall as [H|H]; rewrite (Nat.div_small _ _ H); lia. }
  exists (np_asarray (padded_tiles_of nodata arr tr tc pad)).
  split; [apply make_tiles_3d with (c := c); assumption|].
  rewrite (@tile_grid_empty A nodata arr h w c tr tc pad Hs E0).
  split; [reflexivity|]. intros. reflexivity.
Qed.

End Pipeline.

Section AnyRank.

Variable A : Type.
Variable nodata : A.

(** X8. Without padding [make_tiles] takes any array with at least two axes
    (a 2-D grayscale image included): the tile array has the shape
    (grid_cols * grid_rows, tr, tc) followed by the remaining axes of the
    source, and tile [ndx] is the block of the source at
    ((ndx / grid_cols) * tr, (ndx mod grid_cols) * tc). The first two extents
    of the array are below 2^53. *)
Theorem make_tiles_any_rank (arr : ndarray A) (h w : nat) (rest : list nat)
    (tr tc : nat) :
  shape arr = h :: w :: rest -> 0 < tr -> tr <= h -> 0 < tc -> tc <= w ->
  exact64 (Z.of_nat h) -> exact64 (Z.of_nat w) ->
  exists tiles,
    make_tiles nodata arr (Z.of_nat tr, Z.of_nat tc) 0
    = Ok (tiles, Z.of_nat (w / tc), Z.of_nat (h / tr))
    /\ shape tiles = w / tc * (h / tr) :: tr :: tc :: rest
    /\ wf tiles
    /\ forall ndx i j k,
         ndx < w / tc * (h / tr) -> i < tr -> j < tc -> k < size rest ->
         px nodata (index0 tiles ndx) i j k
         = px nodata arr (ndx / (w / tc) * tr + i) (ndx mod (w / tc) * tc + j) k.
Proof.
  intros Hs Htr Hh Htc Hw Bh Bw.
  assert (Hny : 0 < h / tr) by (apply Nat.div_str_pos; lia).
  assert (Hnx : 0 < w / tc) by (apply Nat.div_str_pos; lia).
  exists (np_asarray (tiles_of nodata arr tr tc)).
  split.
  { rewrite make_tiles_unfold with (h := h) (w := w) (rest := rest);
      first [ assumption
            | apply exact64_le with (b := h); [lia|assumption]
            | apply exact64_le with (b := w); [lia|assumption]
            | reflexivity ]. }
  assert (L : length (tiles_of nodata arr tr tc) = w / tc * (h / tr)).
  { unfold tiles_of. rewrite length_band_list.
    unfold nrows, ncols. rewrite Hs. cbn [nth]. lia. }
  destruct (@np_asarray_uniform A (tiles_of nodata arr tr tc) (tr :: tc :: rest))
    as (H1 & H2 & H3).
  - intros E. rewrite E in L. cbn in L. nia.
  - intros t Ht. unfold tiles_of in Ht.
    apply in_flat_map in Ht. destruct Ht as [rb [_ Ht]].
    apply in_map_iff in Ht. destruct Ht as [cb [<- _]].
    unfold wf, tile_at, depth. rewrite Hs.
    cbn [shape data skipn size fold_right]. rewrite length_tab3.
    split; [reflexivity|lia].
  - rewrite L in H1. split; [assumption|]. split; [assumption|].
    intros ndx i j k Hn Hi Hj Hk.
    rewrite (H3 ndx (NdArray [] [])) by lia.
    unfold tiles_of, nrows, ncols. rewrite Hs. cbn [nth].
    rewrite nth_band_list by assumption.
    unfold tile_at, depth. rewrite Hs. cbn [skipn].
    unfold px at 1. unfold ncols, depth. cbn [shape data nth skipn].
    rewrite nth_tab3 by assumption. reflexivity.
Qed.

End AnyRank.

Section Inverse.

Variable A : Type.
Variable nodata : A.
Variable F : Type.
Variable fzero : F.
Variable to_float64 : A -> F.

(** X13. [make_tiles] undoes [stitch_tiles]: tiling the image stitched from
    a full grid of tiles, with the same tile shape and no padding, returns
    the grid counts and the tiles it was stitched from (cast to float64),
    in the same order. The extents of the stitched image are below 2^53. *)
Theorem make_tiles_after_stitch (T : ndarray A) (nx ny c tr tc : nat) :
  shape T = [nx * ny; tr; tc; c] -> 0 < nx -> 0 < ny -> 0 < tr -> 0 < tc ->
  exact64 (Z.of_nat (tr * ny)) -> exact64 (Z.of_nat (tc * nx)) ->
  exists out tiles,
    stitch_tiles nodata fzero to_float64 T nx ny tc tr 0 = Ok out
    /\ make_tiles fzero out (Z.of_nat tr, Z.of_nat tc) 0
       = Ok (tiles, Z.of_nat nx, Z.of_nat ny)
    /\ shape tiles = [nx * ny; tr; tc; c]
    /\ forall n i j k, n < nx * ny -> i < tr -> j < tc -> k < c ->
         px fzero (index0 tiles n) i j k
         = to_float64 (px nodata (index0 T n) i j k).
Proof.
  intros HT Hnx Hny Htr Htc Bh Bw.
  assert (HT' : shape T = [nx * ny; tr + 2 * 0; tc + 2 * 0; c]).
  { rewrite HT, !Nat.mul_0_r, !Nat.add_0_r. reflexivity. }
  destruct (@stitch_tiles_ok A nodata F fzero to_float64 T (nx * ny)
              (tr + 2 * 0) (tc + 2 * 0) c nx ny tc tr 0 HT')
    as (out & E & Hp).
  { lia. }
  { right. split; apply broadcasts_same. }
  pose proof Hp as (Hso & _ & _).
  assert (Qx : tc * nx / tc = nx) by (rewrite Nat.mul_comm; apply Nat.div_mul; lia).
  assert (Qy : tr * ny / tr = ny) by (rewrite Nat.mul_comm; apply Nat.div_mul; lia).
  assert (Hpos : 0 < tc * nx / tc * (tr * ny / tr)) by (rewrite Qx, Qy; nia).
  destruct (@tile_grid F fzero out (tr * ny) (tc * nx) c tr tc 0 Hso Hpos)
    as (Hst & _ & _).
  pose proof (@tile_sample F fzero out (tr * ny) (tc * nx) c tr tc 0) as Hsample.
  rewrite Qx, Qy in *.
  exists out, (np_asarray (padded_tiles_of fzero out tr tc 0)).
  split; [exact E|]. split.
  { rewrite make_tiles_3d with (h := tr * ny) (w := tc * nx) (c := c);
      first [ assumption
            | apply exact64_le with (b := tr * ny); [nia|assumption]
            | apply exact64_le with (b := tc * nx); [nia|assumption]
            | idtac ].
    rewrite Qx, Qy. reflexivity. }
  split.
  { rewrite Hst, !Nat.mul_0_r, !Nat.add_0_r. reflexivity. }
  intros n i j k Hn Hi Hj Hk.
  rewrite Hsample by (assumption || lia).
  rewrite !Z.sub_0_r, !reflect_index_inside by assumption.
  rewrite stitched_px with (T := T) (n := nx * ny) (c := c) (ny := ny) (crop := 0)
                           (nodata := nodata) (to_float64 := to_float64);
    try assumption.
  reflexivity.
Qed.

End Inverse.

(** X14. The grid counts of [make_tiles] are integer quotients on the range
    of array extents: for a dividend in [0, 2^53) and a non-zero divisor of
    magnitude below 2^53, [int(a / b)], computed through the binary64
    quotient rounded to nearest, is the integer quotient truncated towards
    zero. *)
Theorem int_truediv_is_quotient (a b : Z) :
  (0 <= a)%Z -> exact64 a -> b <> 0%Z -> exact64 b ->
  int_truediv a b = Ok (Z.quot a b)
  /\ (0 < b -> int_truediv a b = Ok (a / b))%Z.
Proof.
  unfold exact64. intros Ha Ba Hb Bb.
  assert (E : int_truediv a b = Ok (Z.quot a b))
    by (apply int_truediv_exact; lia).
  split; [exact E|]. intros Pb. rewrite E.
  rewrite Z.quot_div_nonneg by lia. reflexivity.
Qed.


(** ** Raster files *)

Section AxisMoves.

Variable T : Type.
Variable d : T.

(** Sample [(r, k)] of a table of [n] rows built sample by sample. *)
Lemma nth_tab_map (n m : nat) (f : nat -> nat -> T) (r k : nat) :
  r < n -> k < m ->
  nth (r * m + k) (tab n (fun r => map (f r) (seq 0 m))) d = f r k.
Proof.
  intros Hr Hk.
  rewrite nth_tab with (m := m); try assumption.
  - rewrite nth_indep with (d' := f r 0)
      by (rewrite length_map, length_seq; assumption).
    rewrite map_nth, seq_nth by assumption. reflexivity.
  - intros i _. rewrite length_map, length_seq. reflexivity.
Qed.

Lemma tab_rows_self (n m : nat) (l : list T) :
  length l = n * m ->
  tab n (fun r => map (fun k => nth (r * m + k) l d) (seq 0 m)) = l.
Proof.
  intros Hl.
  apply list_eq_3d with (h := 1) (w := n) (c := m) (d := d).
  - rewrite length_tab with (m := m); [lia|].
    intros r _. rewrite length_map, length_seq. reflexivity.
  - lia.
  - intros i j k Hi Hj Hk. replace i with 0 by lia. cbn [Nat.mul Nat.add].
    pose proof (@nth_tab_map n m (fun r k => nth (r * m + k) l d) j k Hj Hk) as E.
    cbv beta in E. exact E.
Qed.

Lemma length_tab_map (n m : nat) (f : nat -> nat -> T) :
  length (tab n (fun r => map (f r) (seq 0 m))) = n * m.
Proof.
  apply length_tab. intros i _. rewrite length_map, length_seq. reflexivity.
Qed.

(** Moving the channel axis first and then back last is the identity. *)
Lemma moveaxis_there_and_back (a : ndarray T) (d0 d1 d2 : nat) :
  wf a -> shape a = [d0; d1; d2] ->
  np_moveaxis_first_last d (np_moveaxis_2_0 d a) = Ok a.
Proof.
  intros Hwf Hs. unfold wf in Hwf. rewrite Hs in Hwf.
  cbn [size fold_right] in Hwf.
  unfold np_moveaxis_2_0. rewrite Hs.
  unfold np_moveaxis_first_last. cbn [shape data app size fold_right].
  destruct a as [sa da]. cbn [shape data] in *. subst sa.
  do 2 f_equal. rewrite Nat.mul_1_r.
  transitivity (tab (d0 * d1)
                  (fun r => map (fun k => nth (r * d2 + k) da d) (seq 0 d2)));
    [|apply tab_rows_self; lia].
  unfold tab at 1 3. apply flat_map_in_ext. intros r Hr. apply in_seq in Hr.
  apply map_ext_in. intros k Hk. apply in_seq in Hk.
  pose proof (@nth_tab_map d2 (d0 * d1) (fun k r => nth (r * d2 + k) da d) k r
                ltac:(lia) ltac:(lia)) as E.
  cbv beta in E. exact E.
Qed.

(** A single band read band-first is the image with one channel. *)
Lemma moveaxis_single_band (a : ndarray T) :
  wf a ->
  np_moveaxis_first_last d (np_expand_dims_0 a)
  = Ok (NdArray (shape a ++ [1]) (data a)).
Proof.
  intros Hwf. unfold wf in Hwf.
  unfold np_moveaxis_first_last, np_expand_dims_0. cbn [shape data].
  do 2 f_equal.
  transitivity (tab (size (shape a))
                  (fun r => map (fun k => nth (r * 1 + k) (data a) d) (seq 0 1)));
    [|apply tab_rows_self; lia].
  unfold tab. apply flat_map_in_ext. intros r Hr.
  apply map_ext_in. intros k Hk. apply in_seq in Hk.
  replace k with 0 by lia. f_equal. lia.
Qed.

End AxisMoves.

Section RasterRoundTrip.

Variable A : Type.
Variable nodata : A.
Variable Path : Type.
Variable FS : Type.
Variable rasterio_read : Path -> FS -> result (ndarray A).
Variable rasterio_write :
  Path -> nat -> nat -> nat -> ndarray A -> FS -> result FS.
Hypothesis rasterio : rasterio_contract rasterio_read rasterio_write.

(** X9. A 3-D channels-last image saved by [rio_save] is read back
    unchanged by [rio_open]: the move of the channel axis to the front
    before writing and its move to the back after reading cancel. *)
Theorem rio_open_after_rio_save (arr : ndarray A) (h w c : nat)
    (path : Path) (fs fs' : FS) :
  wf arr -> shape arr = [h; w; c] ->
  rio_save nodata rasterio_write arr path fs = Ok fs' ->
  rio_open nodata rasterio_read path fs' = Ok arr.
Proof.
  intros Hwf Hs Hsave. unfold rio_save, ndim in Hsave. rewrite Hs in Hsave.
  cbn [length Nat.eqb] in Hsave.
  assert (Hm : shape (np_moveaxis_2_0 nodata arr) = [c; h; w])
    by (unfold np_moveaxis_2_0; rewrite Hs; reflexivity).
  unfold shape_at in Hsave. rewrite Hm in Hsave. cbn [nth_error bind] in Hsave.
  unfold rio_open. rewrite (rasterio Hm Hsave). cbn [bind].
  apply moveaxis_there_and_back with (d0 := h) (d1 := w) (d2 := c); assumption.
Qed.

(** X10. A 2-D grayscale image saved by [rio_save] is written as a single
    band and comes back from [rio_open] with a channel axis of extent 1:
    the shape (h, w) becomes (h, w, 1), with the same samples. *)
Theorem rio_open_after_rio_save_gray (arr : ndarray A) (h w : nat)
    (path : Path) (fs fs' : FS) :
  wf arr -> shape arr = [h; w] ->
  rio_save nodata rasterio_write arr path fs = Ok fs' ->
  rio_open nodata rasterio_read path fs' = Ok (NdArray [h; w; 1] (data arr)).
Proof.
  intros Hwf Hs Hsave. unfold rio_save, ndim in Hsave. rewrite Hs in Hsave.
  cbn [length Nat.eqb] in Hsave.
  assert (Hm : shape (np_expand_dims_0 arr) = [1; h; w])
    by (unfold np_expand_dims_0; rewrite Hs; reflexivity).
  unfold shape_at in Hsave. rewrite Hm in Hsave. cbn [nth_error bind] in Hsave.
  unfold rio_open. rewrite (rasterio Hm Hsave). cbn [bind].
  rewrite moveaxis_single_band by assumption. rewrite Hs. reflexivity.
Qed.

(** X11. [rio_save] writes one band per channel: for an image of shape
    (h, w, c) it hands rasterio the extents count = c, height = h,
    width = w and a well-formed band-first array in which pixel (i, j) of
    band k is sample k of pixel (i, j) of the image. *)
Theorem rio_save_bands (arr : ndarray A) (h w c : nat) (path : Path) (fs : FS) :
  wf arr -> shape arr = [h; w; c] ->
  exists bands,
    rio_save nodata rasterio_write arr path fs
    = rasterio_write path c h w bands fs
    /\ shape bands = [c; h; w]
    /\ wf bands
    /\ forall k i j, k < c -> i < h -> j < w ->
         px nodata bands k i j = px nodata arr i j k.
Proof.
  intros Hwf Hs. exists (np_moveaxis_2_0 nodata arr).
  assert (Hm : shape (np_moveaxis_2_0 nodata arr) = [c; h; w])
    by (unfold np_moveaxis_2_0; rewrite Hs; reflexivity).
  split.
  { unfold rio_save, ndim. rewrite Hs. cbn [length Nat.eqb].
    unfold shape_at. rewrite Hm. reflexivity. }
  split; [exact Hm|]. split.
  { unfold wf. rewrite Hm. unfold np_moveaxis_2_0. rewrite Hs.
    cbn [data size fold_right]. rewrite length_tab_map. lia. }
  intros k i j Hk Hi Hj.
  unfold px, ncols, depth. rewrite Hm, Hs. cbn [nth skipn size fold_right].
  unfold np_moveaxis_2_0. rewrite Hs. cbn [data].
  rewrite !Nat.mul_1_r.
  replace ((k * h + i) * w + j) with (k * (h * w) + (i * w + j)) by lia.
  rewrite nth_tab_map; [reflexivity|assumption|].
  pose proof (@flat_index_lt 1 h w 0 i j ltac:(lia) Hi Hj). lia.
Qed.

(** X12. [rio_open] returns the image channels last: for a file of c bands
    of h by w pixels it returns a well-formed array of shape (h, w, c) in
    which sample k of pixel (i, j) is pixel (i, j) of band k. *)
Theorem rio_open_channels_last (bands : ndarray A) (c h w : nat)
    (path : Path) (fs : FS) :
  rasterio_read path fs = Ok bands -> shape bands = [c; h; w] ->
  exists arr,
    rio_open nodata rasterio_read path fs = Ok arr
    /\ shape arr = [h; w; c]
    /\ wf arr
    /\ forall i j k, i < h -> j < w -> k < c ->
         px nodata arr i j k = px nodata bands k i j.
Proof.
  intros Hread Hs. unfold rio_open. rewrite Hread. cbn [bind].
  unfold np_moveaxis_first_last. rewrite Hs. cbn [app size fold_right].
  eexists. split; [reflexivity|]. cbn [shape data].
  split; [reflexivity|]. split.
  { unfold wf. cbn [shape data size fold_right]. rewrite length_tab_map. lia. }
  intros i j k Hi Hj Hk.
  unfold px, ncols, depth. rewrite Hs. cbn [shape data nth skipn size fold_right].
  rewrite !Nat.mul_1_r.
  pose proof (@flat_index_lt 1 h w 0 i j ltac:(lia) Hi Hj).
  rewrite nth_tab_map by lia. f_equal. lia.
Qed.

End RasterRoundTrip.

(** ** The in-memory stand-in for rasterio meets the contract *)

Lemma mem_store_contract (T : Type) :
  rasterio_contract (@mem_read T) (@mem_write T).
Proof.
  intros path count height width arr fs fs' Hs Hw.
  unfold mem_write in Hw. rewrite Hs, !Nat.eqb_refl in Hw. cbn [andb] in Hw.
  inversion Hw. unfold mem_read. rewrite Nat.eqb_refl. reflexivity.
Qed.

(** ** The further properties on concrete arrays *)

Lemma stitch_crop_undoes_pad_example :
  exists tiles out,
    make_tiles 0%Z (ramp [5; 7; 1]) (2, 3)%Z 1 = Ok (tiles, 2%Z, 2%Z)
    /\ stitch_tiles 0%Z (S754_zero false) float_of_int tiles 2 2 3 2 1 = Ok out
    /\ px (S754_zero false) out 3 4 0 = float_of_int (px 0%Z (ramp [5; 7; 1]) 3 4 0).
Proof.
  destruct (@stitch_crop_undoes_pad Z 0%Z spec_float (S754_zero false)
              float_of_int (ramp [5; 7; 1]) 5 7 1 2 3 1)
    as (tiles & out & E1 & E2 & _ & _ & H);
    [reflexivity | lia | lia | lia | lia
     | unfold exact64; lia | unfold exact64; lia |].
  exists tiles, out. split; [exact E1|]. split; [exact E2|].
  apply H; cbn; lia.
Defined.

Lemma stitch_crop_below_pad_raises_example :
  exists tiles,
    make_tiles 0%Z (ramp [5; 7; 1]) (2, 3)%Z 1 = Ok (tiles, 2%Z, 2%Z)
    /\ stitch_tiles 0%Z (S754_zero false) float_of_int tiles 2 2 3 2 0
       = Raise ValueError.
Proof.
  apply (@stitch_crop_below_pad_raises Z 0%Z spec_float (S754_zero false)
           float_of_int (ramp [5; 7; 1]) 5 7 1 2 3 1 0);
    [reflexivity | lia | lia | lia | lia
     | unfold exact64; lia | unfold exact64; lia | lia].
Defined.

Lemma stitch_keeps_padding_example :
  exists tiles out,
    make_tiles 0%Z (ramp [5; 7; 1]) (2, 3)%Z 1 = Ok (tiles, 2%Z, 2%Z)
    /\ stitch_tiles 0%Z (S754_zero false) float_of_int tiles 2 2 5 4 0 = Ok out
    /\ shape out = [8; 10; 1].
Proof.
  destruct (@stitch_keeps_padding Z 0%Z spec_float (S754_zero false)
              float_of_int (ramp [5; 7; 1]) 5 7 1 2 3 1)
    as (tiles & out & E1 & E2 & Hs & _);
    [reflexivity | lia | lia | lia | lia
     | unfold exact64; lia | unfold exact64; lia |].
  exists tiles, out. split; [exact E1|]. split; [exact E2 | exact Hs].
Defined.

Lemma make_tiles_covers_example :
  exists tiles,
    make_tiles 0%Z (ramp [5; 7; 1]) (2, 3)%Z 0 = Ok (tiles, 2%Z, 2%Z)
    /\ px 0%Z (index0 tiles (3 / 2 * 2 + 4 / 3)) (3 mod 2) (4 mod 3) 0
       = px 0%Z (ramp [5; 7; 1]) 3 4 0.
Proof.
  destruct (@make_tiles_covers Z 0%Z (ramp [5; 7; 1]) 5 7 1 2 3)
    as (tiles & E & H);
    [reflexivity | lia | lia | unfold exact64; lia | unfold exact64; lia
     | unfold exact64; lia | unfold exact64; lia |].
  exists tiles. split; [exact E|].
  apply (H 3 4 0); cbn; lia.
Defined.

Lemma stitch_partial_grid_example :
  exists out,
    stitch_tiles 0%Z (S754_zero false) float_of_int (ramp [3; 2; 3; 1]) 2 2 3 2 0
    = Ok out
    /\ px (S754_zero false) out 3 4 0 = S754_zero false.
Proof.
  destruct (@stitch_partial_grid Z 0%Z spec_float (S754_zero false) float_of_int
              (ramp [3; 2; 3; 1]) 3 1 2 2 3 2 0 eq_refl)
    as (out & E & _ & _ & H); [lia|].
  exists out. split; [exact E|].
  apply (H 3 4 0); lia.
Defined.

Lemma stitch_broadcasts_pixel_example :
  exists out,
    stitch_tiles 0%Z (S754_zero false) float_of_int (ramp [2; 1; 1; 1]) 2 1 3 2 0
    = Ok out
    /\ px (S754_zero false) out 1 5 0 = float_of_int 1.
Proof.
  destruct (@stitch_broadcasts_pixel Z 0%Z spec_float (S754_zero false)
              float_of_int (ramp [2; 1; 1; 1]) 2 1 2 1 3 2 0 eq_refl)
    as (out & E & H); [lia|].
  exists out. split; [exact E|].
  apply (H 1 5 0); cbn; lia.
Defined.

Lemma stitch_refuses_empty_grid_example :
  exists tiles,
    make_tiles 0%Z (ramp [1; 7; 1]) (2, 3)%Z 0 = Ok (tiles, 2%Z, 0%Z)
    /\ stitch_tiles 0%Z (S754_zero false) float_of_int tiles 2 0 3 2 0
       = Raise IndexError.
Proof.
  destruct (@stitch_refuses_empty_grid Z 0%Z spec_float (S754_zero false)
              float_of_int (ramp [1; 7; 1]) 1 7 1 2 3 0)
    as (tiles & E & _ & H);
    [reflexivity | lia | lia | left; lia | unfold exact64; lia
     | unfold exact64; lia | unfold exact64; lia | unfold exact64; lia |].
  exists tiles. split; [exact E | apply H].
Defined.

Lemma make_tiles_any_rank_example :
  exists tiles,
    make_tiles 0%Z (ramp [5; 7]) (2, 3)%Z 0 = Ok (tiles, 2%Z, 2%Z)
    /\ shape tiles = [4; 2; 3].
Proof.
  destruct (@make_tiles_any_rank Z 0%Z (ramp [5; 7]) 5 7 [] 2 3)
    as (tiles & E & Hs & _);
    [reflexivity | lia | lia | lia | lia
     | unfold exact64; lia | unfold exact64; lia |].
  exists tiles. split; [exact E | exact Hs].
Defined.

Lemma rio_open_after_rio_save_example :
  exists fs',
    rio_save 0%Z (@mem_write Z) (ramp [2; 3; 2]) 7 mem_empty = Ok fs'
    /\ rio_open 0%Z (@mem_read Z) 7 fs' = Ok (ramp [2; 3; 2]).
Proof.
  eexists. split; [reflexivity|].
  apply (@rio_open_after_rio_save Z 0%Z nat (nat -> ndarray Z)
           (@mem_read Z) (@mem_write Z) (@mem_store_contract Z)
           (ramp [2; 3; 2]) 2 3 2 7 mem_empty);
    reflexivity.
Defined.

Lemma rio_open_after_rio_save_gray_example :
  exists fs',
    rio_save 0%Z (@mem_write Z) (ramp [2; 3]) 7 mem_empty = Ok fs'
    /\ rio_open 0%Z (@mem_read Z) 7 fs' = Ok (ramp [2; 3; 1]).
Proof.
  eexists. split; [reflexivity|].
  apply (@rio_open_after_rio_save_gray Z 0%Z nat (nat -> ndarray Z)
           (@mem_read Z) (@mem_write Z) (@mem_store_contract Z)
           (ramp [2; 3]) 2 3 7 mem_empty);
    reflexivity.
Defined.

Lemma rio_save_bands_example :
  exists bands,
    rio_save 0%Z (@mem_write Z) (ramp [2; 3; 2]) 7 mem_empty
    = mem_write 7 2 2 3 bands mem_empty
    /\ px 0%Z bands 1 1 2 = px 0%Z (ramp [2; 3; 2]) 1 2 1.
Proof.
  destruct (@rio_save_bands Z 0%Z nat (nat -> ndarray Z) (@mem_write Z)
              (ramp [2; 3; 2]) 2 3 2 7 mem_empty)
    as (bands & E & _ & _ & H); [reflexivity | reflexivity |].
  exists bands. split; [exact E|].
  apply (H 1 1 2); lia.
Defined.

Lemma rio_open_channels_last_example :
  exists arr,
    rio_open 0%Z (@mem_read Z) 7 (fun _ => ramp [2; 2; 3]) = Ok arr
    /\ shape arr = [2; 3; 2].
Proof.
  destruct (@rio_open_channels_last Z 0%Z nat (nat -> ndarray Z) (@mem_read Z)
              (ramp [2; 2; 3]) 2 2 3 7 (fun _ => ramp [2; 2; 3]))
    as (arr & E & Hs & _); [reflexivity | reflexivity |].
  exists arr. split; [exact E | exact Hs].
Defined.

Lemma int_truediv_is_quotient_example :
  int_truediv 7 (-2) = Ok (-3)%Z /\ int_truediv 7 2 = Ok 3%Z.
Proof.
  split.
  - apply (@int_truediv_is_quotient 7 (-2));
      [lia | unfold exact64; lia | lia | unfold exact64; lia].
  - apply (@int_truediv_is_quotient 7 2);
      [lia | unfold exact64; lia | lia | unfold exact64; lia | lia].
Defined.

Lemma make_tiles_after_stitch_example :
  exists out tiles,
    stitch_tiles 0%Z (S754_zero false) float_of_int (ramp [4; 2; 3; 1]) 2 2 3 2 0
    = Ok out
    /\ make_tiles (S754_zero false) out (2, 3)%Z 0 = Ok (tiles, 2%Z, 2%Z)
    /\ px (S754_zero false) (index0 tiles 3) 1 2 0 = float_of_int 23.
Proof.
  destruct (@make_tiles_after_stitch Z 0%Z spec_float (S754_zero false)
              float_of_int (ramp [4; 2; 3; 1]) 2 2 1 2 3)
    as (out & tiles & E1 & E2 & _ & H);
    [reflexivity | lia | lia | lia | lia
     | unfold exact64; lia | unfold exact64; lia |].
  exists out, tiles. split; [exact E1|]. split; [exact E2|].
  apply (H 3 1 2 0); lia.
Defined.
